(** * X-ray spectroscopy agent: curve normaliser, peak detector, vector store

    A shallow embedding of [backend/spectroscopy.py] and
    [backend/pinecone_rag.py].

    - NumPy [float64] values are IEEE 754 binary64 numbers, modelled by the
      Standard Library's [spec_float] with [prec = 53] and [emax = 1024];
      comparisons and division are the library's [SFcompare] and [SFdiv].
    - Python exceptions are an explicit result type.
    - The calls to OpenAI, Pinecone and [uuid] are events of a small free
      monad; a backend interprets them over a world state and the run
      records the trace of calls. *)

From Stdlib Require Import ZArith Bool Lia.
From Stdlib Require Import Floats.SpecFloat.
From stdpp Require Import gmap strings list sorting pretty.

Local Open Scope Z_scope.

(** ** Python results *)

Inductive exn : Type :=
| IndexError
| ValueError
| AttributeError
| BackendError (msg : string).

Inductive res (A : Type) : Type :=
| Ok (a : A)
| Raise (e : exn).
Arguments Ok {A} a.
Arguments Raise {A} e.

Definition res_bind {A B} (r : res A) (f : A -> res B) : res B :=
  match r with
  | Ok a => f a
  | Raise e => Raise e
  end.

Declare Scope res_scope.
Delimit Scope res_scope with res.
Notation "x <- r ;; k" := (res_bind r (fun x => k))
  (at level 100, r at next level, right associativity) : res_scope.

(** ** binary64 *)

Module F64.

Definition prec : Z := 53.
Definition emax : Z := 1024.

Abbreviation float := spec_float.

Definition valid (x : float) : bool := valid_binary prec emax x.

Definition eqb (x y : float) : bool := SFeqb x y.
Definition ltb (x y : float) : bool := SFltb x y.
Definition leb (x y : float) : bool := SFleb x y.
Definition div (x y : float) : float := SFdiv prec emax x y.
Definition mul (x y : float) : float := SFmul prec emax x y.
Definition add (x y : float) : float := SFadd prec emax x y.
Definition sqrt (x : float) : float := SFsqrt prec emax x.

Definition is_nan (x : float) : bool :=
  match x with S754_nan => true | _ => false end.

Definition is_finite (x : float) : bool :=
  match x with S754_zero _ | S754_finite _ _ _ => true | _ => false end.

Definition zero : float := S754_zero false.
Definition one : float := S754_finite false 4503599627370496 (-52).
Definition inf : float := S754_infinity false.
Definition nan : float := S754_nan.

(** The literals of the source, as the nearest binary64 value. *)
(** [0.99 = 0x1.fae147ae147aep-1] *)
Definition lit_0_99 : float := S754_finite false 8917127262193582 (-53).
(** [0.2 = 0x1.999999999999ap-3] *)
Definition lit_0_2 : float := S754_finite false 7205759403792794 (-55).

End F64.

Import F64.

(** ** Python sequences and the NumPy reductions the source uses *)

Definition py_len {A} (a : list A) : Z := Z.of_nat (length a).

(** [range(start, stop)] *)
Definition py_range (start stop : Z) : list Z := seqZ start (stop - start).

(** [a[i]]: a negative index counts from the end, an index outside the
    sequence raises [IndexError]. *)
Definition py_getitem {A} (a : list A) (i : Z) : res A :=
  let n := py_len a in
  let j := if i <? 0 then i + n else i in
  if (j <? 0) || (n <=? j) then Raise IndexError
  else match a !! Z.to_nat j with
       | Some x => Ok x
       | None => Raise IndexError
       end.

(** [a[start:stop]]: negative bounds count from the end, then both bounds
    are clipped to [0, len(a)]; never raises. *)
Definition py_slice {A} (a : list A) (start stop : Z) : list A :=
  let n := py_len a in
  let clip i := if i <? 0 then Z.max (i + n) 0 else Z.min i n in
  take (Z.to_nat (clip stop - clip start)) (drop (Z.to_nat (clip start)) a).

(** [np.maximum] on two [float64]: the first operand is kept when it is
    greater or equal or a NaN, so a NaN on either side propagates. *)
Definition np_maximum (a b : float) : float :=
  if leb b a || is_nan a then a else b.

(** [np.max(a)]: the reduction of [np.maximum] from the first element;
    [ValueError] on an empty array. Between a zero and a zero of the other
    sign, which compare equal, the reduction here keeps the earlier one;
    NumPy's vectorised reduction may keep either, so the sign of a maximum
    that is a zero is not fixed by the source. *)
Definition np_max (a : list float) : res float :=
  match a with
  | [] => Raise ValueError
  | x :: l => Ok (fold_left np_maximum l x)
  end.

(** ** backend/models.py *)

Record SpectrumFeature : Type := {
  peak_energy : float;
  peak_intensity : float;
}.

(** ** backend/spectroscopy.py *)

Definition normalize_intensity (intensity : list float) : res (list float) :=
  (max_val <- np_max intensity ;;
   if leb max_val zero then Ok intensity
   else Ok (map (fun x => div x max_val) intensity))%res.

(** The body of [for i in range(window, n - window)], with [peaks] the list
    being appended to. *)
Fixpoint detect_loop (energy intensity : list float) (window : Z)
    (threshold : float) (indices : list Z) (peaks : list SpectrumFeature)
    : res (list SpectrumFeature) :=
  match indices with
  | [] => Ok peaks
  | i :: rest =>
      let local := py_slice intensity (i - window) (i + window + 1) in
      (x <- py_getitem intensity i ;;
       m <- np_max local ;;
       if eqb x m && leb threshold x then
         e <- py_getitem energy i ;;
         detect_loop energy intensity window threshold rest
           (peaks ++ [{| peak_energy := e; peak_intensity := x |}])
       else
         detect_loop energy intensity window threshold rest peaks)%res
  end.

Definition detect_peaks (energy intensity : list float) (window : Z)
    (threshold : float) : res (list SpectrumFeature) :=
  let peaks := [] in
  let n := py_len intensity in
  if n =? 0 then Ok peaks
  else detect_loop energy intensity window threshold
         (py_range window (n - window)) peaks.

(** The defaults of the signature: [window = 5], [threshold = 0.2]. *)
Definition detect_peaks_default (energy intensity : list float) :=
  detect_peaks energy intensity 5 lit_0_2.

(** ** What the peak detector is specified to compute *)

(** The sample at a (non-negative) position of a curve. *)
Definition sample (a : list float) (i : Z) : option float :=
  if i <? 0 then None else a !! Z.to_nat i.

(** The samples at positions [i - window .. i + window]. *)
Definition window_samples (a : list float) (i window : Z) : list float :=
  omap (sample a) (seqZ (i - window) (2 * window + 1)).

(** [x] equals the maximum of [l]: it compares equal to a member of [l] and
    no member is above it. *)
Definition is_maximum_of (x : float) (l : list float) : Prop :=
  (exists y, y ∈ l /\ eqb x y = true) /\ (forall y, y ∈ l -> leb y x = true).

Definition is_peak (intensity : list float) (window : Z) (threshold : float)
    (i : Z) : Prop :=
  exists x, sample intensity i = Some x
    /\ is_maximum_of x (window_samples intensity i window)
    /\ leb threshold x = true.

(** A feature carries the energy and the intensity of the sample at [i]. *)
Definition feature_at (energy intensity : list float) (i : Z)
    (p : SpectrumFeature) : Prop :=
  sample energy i = Some (peak_energy p)
  /\ sample intensity i = Some (peak_intensity p).

(** The test of the loop body, as a boolean, at a position of the curve. *)
Definition peak_test (intensity : list float) (window : Z) (threshold : float)
    (i : Z) : bool :=
  match sample intensity i,
        np_max (py_slice intensity (i - window) (i + window + 1)) with
  | Some x, Ok m => eqb x m && leb threshold x
  | _, _ => false
  end.

(** ** The services behind the vector store *)

Abbreviation vector := (list float).

(** A metadata value of a Pinecone record. *)
Inductive meta_value : Type :=
| MStr (s : string)
| MNum (x : float)
| MBool (b : bool)
| MList (l : list string).

(** A record handed to [index.upsert]: the dict with the keys ["id"],
    ["values"] and ["metadata"]. *)
Record Vector : Type := {
  v_id : string;
  v_values : vector;
  v_metadata : gmap string meta_value;
}.

(** A match of a query response. Its [metadata] attribute is a dict,
    possibly empty, or [None] for a record that was stored without
    metadata. *)
Record ScoredVector : Type := {
  sv_id : string;
  sv_score : float;
  sv_metadata : option (gmap string meta_value);
}.

Record QueryResponse : Type := { matches : list ScoredVector }.

(** The calls that leave the process, each with the type of its answer. *)
Inductive call : Type -> Type :=
| embeddings_create (model : string) (input : list string) : call (list vector)
| pinecone_client (api_key : string) : call unit
| list_indexes : call (list string)
| create_index (name : string) (dimension : Z) (metric cloud region : string)
    : call unit
| open_index (name : string) : call unit
| index_query (index namespace : string) (vector : vector) (top_k : Z)
    (include_metadata : bool) : call QueryResponse
| index_upsert (index : string) (vectors : list Vector) (namespace : string)
    : call unit
| uuid4 : call string.

(** Programs over these calls. A call hands its continuation either the
    answer or the exception it raised. *)
Inductive prog (A : Type) : Type :=
| Ret (a : A)
| Throw (e : exn)
| Do {R : Type} (c : call R) (k : res R -> prog A).
Arguments Ret {A} a.
Arguments Throw {A} e.
Arguments Do {A R} c k.

Fixpoint bind {A B} (p : prog A) (f : A -> prog B) : prog B :=
  match p with
  | Ret a => f a
  | Throw e => Throw e
  | Do c k => Do c (fun r => bind (k r) f)
  end.

(** A call outside any [try]: its exception propagates. *)
Definition perform {R} (c : call R) : prog R :=
  Do c (fun r => match r with Ok x => Ret x | Raise e => Throw e end).

(** [try: p  except Exception as e: ...], with the outcome reified. *)
Fixpoint attempt {A} (p : prog A) : prog (res A) :=
  match p with
  | Ret a => Ret (Ok a)
  | Throw e => Ret (Raise e)
  | Do c k => Do c (fun r => attempt (k r))
  end.

Definition lift {A} (r : res A) : prog A :=
  match r with Ok a => Ret a | Raise e => Throw e end.

Declare Scope prog_scope.
Delimit Scope prog_scope with prog.
Notation "x <- p ;; k" := (bind p (fun x => k))
  (at level 100, p at next level, right associativity) : prog_scope.
Notation "p ;; k" := (bind p (fun _ => k))
  (at level 100, right associativity) : prog_scope.

(** A backend answers the calls over a world state. [uuid4] never raises. *)
Record backend : Type := {
  world : Type;
  on_embeddings_create : string -> list string -> world -> res (list vector) * world;
  on_pinecone_client : string -> world -> res unit * world;
  on_list_indexes : world -> res (list string) * world;
  on_create_index : string -> Z -> string -> string -> string -> world -> res unit * world;
  on_open_index : string -> world -> res unit * world;
  on_index_query : string -> string -> vector -> Z -> bool -> world -> res QueryResponse * world;
  on_index_upsert : string -> list Vector -> string -> world -> res unit * world;
  on_uuid4 : world -> string * world;
}.

Definition handle (B : backend) {R} (c : call R) (w : world B) : res R * world B :=
  match c in call R return res R * world B with
  | embeddings_create model input => on_embeddings_create B model input w
  | pinecone_client key => on_pinecone_client B key w
  | list_indexes => on_list_indexes B w
  | create_index name dim metric cloud region =>
      on_create_index B name dim metric cloud region w
  | open_index name => on_open_index B name w
  | index_query idx ns v k im => on_index_query B idx ns v k im w
  | index_upsert idx vs ns => on_index_upsert B idx vs ns w
  | uuid4 => let (s, w') := on_uuid4 B w in (Ok s, w')
  end.

(** One call of a run, with what it answered. *)
Inductive event : Type :=
| Event {R : Type} (c : call R) (r : res R).

(** The run of a program: its outcome, the final world and the trace. *)
Fixpoint run (B : backend) {A} (p : prog A) (w : world B)
    : res A * world B * list event :=
  match p with
  | Ret a => (Ok a, w, [])
  | Throw e => (Raise e, w, [])
  | Do c k =>
      let (r, w1) := handle B c w in
      let '(out, w2, tr) := run B (k r) w1 in
      (out, w2, Event c r :: tr)
  end.

(** A run continued after the events [tr1]. *)
Definition then_trace {B : backend} {A} (tr1 : list event)
    (x : res A * world B * list event) : res A * world B * list event :=
  let '(out, w, tr) := x in (out, w, tr1 ++ tr).

(** ** backend/config.py and the module globals of backend/pinecone_rag.py *)

Record Config : Type := {
  PINECONE_API_KEY : string;
  PINECONE_INDEX_NAME : string;
  EMBEDDING_MODEL : string;
}.

(** ** backend/pinecone_rag.py

    The [print] calls write to standard output only and are left out. *)

Definition embed_text (cfg : Config) (texts : list string) : prog (list vector) :=
  perform (embeddings_create (EMBEDDING_MODEL cfg) texts).

(** The object: [self.enabled], and [self.index] once it has been set. *)
Record PineconeRAG : Type := {
  enabled : bool;
  index : option string;
}.

(** Reading [self.index]. *)
Definition self_index (self : PineconeRAG) : prog string :=
  match index self with
  | Some idx => Ret idx
  | None => Throw AttributeError
  end.

Definition PineconeRAG_init (cfg : Config) : prog PineconeRAG :=
  if String.eqb (PINECONE_API_KEY cfg) EmptyString then
    Ret {| enabled := false; index := None |}
  else
    (perform (pinecone_client (PINECONE_API_KEY cfg)) ;;
     existing_indexes <- perform list_indexes ;;
     (if bool_decide (PINECONE_INDEX_NAME cfg ∈ existing_indexes) then Ret tt
      else perform (create_index (PINECONE_INDEX_NAME cfg) 1536 "cosine" "aws" "us-east-1")) ;;
     perform (open_index (PINECONE_INDEX_NAME cfg)) ;;
     Ret {| enabled := true; index := Some (PINECONE_INDEX_NAME cfg) |})%prog.

(** [existing and existing.matches] and [top_match.score > 0.99]. *)
Definition is_duplicate (existing : QueryResponse) : bool :=
  match matches existing with
  | top_match :: _ => ltb lit_0_99 (sv_score top_match)
  | [] => false
  end.

Definition new_vector (vid : string) (emb : vector) (text : string) : Vector :=
  {| v_id := vid; v_values := emb;
     v_metadata := {[ "text"%string := MStr text ]} |}.

(** The body of [for text, emb in zip(docs, embeddings)]. *)
Fixpoint dedup_loop (self : PineconeRAG) (namespace : string)
    (pairs : list (string * vector)) (vectors_to_insert : list Vector)
    : prog (list Vector) :=
  match pairs with
  | [] => Ret vectors_to_insert
  | (text, emb) :: rest =>
      (r <- attempt (idx <- self_index self ;;
                     perform (index_query idx namespace emb 1 true)) ;;
       match r with
       | Raise e => dedup_loop self namespace rest vectors_to_insert
       | Ok existing =>
           if is_duplicate existing then
             dedup_loop self namespace rest vectors_to_insert
           else
             vid <- perform uuid4 ;;
             dedup_loop self namespace rest
               (vectors_to_insert ++ [new_vector vid emb text])
       end)%prog
  end.

(** Step 5 of [upsert_docs]. *)
Definition insert_staged (self : PineconeRAG) (namespace : string)
    (vectors_to_insert : list Vector) : prog unit :=
  match vectors_to_insert with
  | [] => Ret tt
  | _ => (idx <- self_index self ;;
          perform (index_upsert idx vectors_to_insert namespace))%prog
  end.

Definition upsert_docs (cfg : Config) (self : PineconeRAG) (docs : list string)
    (namespace : string) : prog unit :=
  if negb (enabled self) || bool_decide (docs = []) then Ret tt
  else
    (embeddings <- embed_text cfg docs ;;
     vectors_to_insert <- dedup_loop self namespace (zip docs embeddings) [] ;;
     insert_staged self namespace vectors_to_insert)%prog.

Definition result_row : Type := meta_value * string * float.

(** [match.metadata.get("text", default)]: the method call on [None] raises
    [AttributeError]. *)
Definition metadata_get (m : ScoredVector) (key : string) (default_value : meta_value)
    : res meta_value :=
  match sv_metadata m with
  | None => Raise AttributeError
  | Some metadata => Ok (default default_value (metadata !! key))
  end.

(** The body of [for match in resp.matches]. *)
Fixpoint retrieve_loop (ms : list ScoredVector) (results : list result_row)
    : res (list result_row) :=
  match ms with
  | [] => Ok results
  | m :: rest =>
      (text <- metadata_get m "text" (MStr EmptyString) ;;
       let score := sv_score m in
       retrieve_loop rest (results ++ [(text, sv_id m, score)]))%res
  end.

Definition retrieve (cfg : Config) (self : PineconeRAG) (query : string) (k : Z)
    (namespace : string) : prog (list result_row) :=
  if negb (enabled self) then Ret []
  else
    (embs <- embed_text cfg [query] ;;
     q_emb <- lift (py_getitem embs 0) ;;
     idx <- self_index self ;;
     resp <- perform (index_query idx namespace q_emb k true) ;;
     lift (retrieve_loop (matches resp) []))%prog.

(** A sequence of method calls on one store object. *)
Inductive method : Type :=
| call_retrieve (query : string) (k : Z) (namespace : string)
| call_upsert_docs (docs : list string) (namespace : string).

Inductive returned : Type :=
| from_retrieve (results : list result_row)
| from_upsert_docs.

Definition invoke (cfg : Config) (self : PineconeRAG) (m : method) : prog returned :=
  match m with
  | call_retrieve query k namespace =>
      (results <- retrieve cfg self query k namespace ;; Ret (from_retrieve results))%prog
  | call_upsert_docs docs namespace =>
      (upsert_docs cfg self docs namespace ;; Ret from_upsert_docs)%prog
  end.

Fixpoint session (cfg : Config) (self : PineconeRAG) (ms : list method)
    : prog (list returned) :=
  match ms with
  | [] => Ret []
  | m :: rest =>
      (r <- invoke cfg self m ;;
       rs <- session cfg self rest ;;
       Ret (r :: rs))%prog
  end.

(** ** The dedup pass, read off the trace of a run *)

Definition query_event (idx ns : string) (emb : vector) (r : res QueryResponse)
    : event :=
  Event (index_query idx ns emb 1 true) r.

(** The response has a top match whose score is strictly above 0.99. *)
Definition top_score_above (resp : QueryResponse) : Prop :=
  exists top rest,
    matches resp = top :: rest /\ ltb lit_0_99 (sv_score top) = true.

(** One pair whose nearest-neighbour query answers: it is skipped when the
    top match is above the threshold, otherwise a [uuid4] id is drawn and the
    record is staged. *)
Inductive answered_step (idx ns text : string) (emb : vector)
    : list event -> option Vector -> Prop :=
| step_duplicate resp :
    top_score_above resp ->
    answered_step idx ns text emb [query_event idx ns emb (Ok resp)] None
| step_staged resp vid :
    ~ top_score_above resp ->
    answered_step idx ns text emb
      [query_event idx ns emb (Ok resp); Event uuid4 (Ok vid)]
      (Some {| v_id := vid; v_values := emb;
               v_metadata := {[ "text"%string := MStr text ]} |}).

(** One pair whose query raises: one event, nothing staged. *)
Inductive failed_step (idx ns : string) (emb : vector)
    : list event -> option Vector -> Prop :=
| step_failed e :
    failed_step idx ns emb [query_event idx ns emb (Raise e)] None.

Definition dedup_step (idx ns text : string) (emb : vector)
    (tr : list event) (o : option Vector) : Prop :=
  answered_step idx ns text emb tr o \/ failed_step idx ns emb tr o.

(** The pairs in order, each by [step]; the staged records in order. *)
Inductive dedup_pass
    (step : string -> vector -> list event -> option Vector -> Prop)
    : list (string * vector) -> list event -> list Vector -> Prop :=
| pass_nil : dedup_pass step [] [] []
| pass_cons text emb pairs tr1 o tr staged :
    step text emb tr1 o ->
    dedup_pass step pairs tr staged ->
    dedup_pass step ((text, emb) :: pairs) (tr1 ++ tr) (option_list o ++ staged).

(** Which events are [index.upsert] calls, and which [index.query] calls. *)
Definition is_index_upsert (ev : event) : bool :=
  match ev with
  | Event c _ => match c with index_upsert _ _ _ => true | _ => false end
  end.

Definition is_index_query (ev : event) : bool :=
  match ev with
  | Event c _ => match c with index_query _ _ _ _ _ => true | _ => false end
  end.

(** The id answered by a [uuid4] call, for an event that is one. *)
Definition uuid_answer (ev : event) : option string :=
  match ev with
  | Event c r =>
      match c in call R return res R -> option string with
      | uuid4 => fun r => match r with Ok s => Some s | Raise _ => None end
      | _ => fun _ => None
      end r
  end.

(** The ids drawn during a trace, in order. *)
Definition uuid_answers (tr : list event) : list string := omap uuid_answer tr.

(** The final insertion: one [index.upsert] call carrying every staged
    record, and no call at all when nothing is staged. *)
Definition insert_events (idx ns : string) (staged : list Vector)
    (out : res unit) : list event :=
  match staged with
  | [] => []
  | _ => [Event (index_upsert idx staged ns) out]
  end.

(** A whole run of [upsert_docs]: the embedding call, the dedup pass, then
    the final insertion, whose outcome is the outcome of the run; the ids of
    the staged records are the ids drawn from [uuid4] during the pass. *)
Definition upsert_run
    (step : string -> vector -> list event -> option Vector -> Prop)
    (cfg : Config) (idx ns : string) (docs : list string)
    (embeddings : list vector) (out : res unit) (tr : list event) : Prop :=
  exists tr_dedup staged,
    dedup_pass step (zip docs embeddings) tr_dedup staged
    /\ tr = Event (embeddings_create (EMBEDDING_MODEL cfg) docs) (Ok embeddings)
            :: tr_dedup ++ insert_events idx ns staged out
    /\ (staged = [] -> out = Ok tt)
    /\ v_id <$> staged = uuid_answers tr_dedup.

(** The text of a match, as [retrieve] is specified to report it: the value
    under ["text"], and the empty string for a match that has none. *)
Definition match_text (m : ScoredVector) : meta_value :=
  match sv_metadata m ≫= (.!! "text"%string) with
  | Some v => v
  | None => MStr EmptyString
  end.

(** The match carries a metadata dict. *)
Definition has_metadata (m : ScoredVector) : Prop := is_Some (sv_metadata m).

(** ** A reference backend: an index held in memory

    Each namespace holds its records in insertion order; a query scores the
    records of the namespace against the query vector and answers the
    [top_k] best, best first; an upsert replaces the record with the same id
    or appends. [mem_faults] schedules failures: each query consumes one
    flag and raises when it is set. Ids are drawn from a counter. *)

Record mem_world : Type := {
  mem_store : gmap string (list Vector);
  mem_next_id : nat;
  mem_indexes : list string;
  mem_faults : list bool;
}.

Definition uid (n : nat) : string := String.append "id-" (pretty n).

Fixpoint put_record (r : Vector) (l : list Vector) : list Vector :=
  match l with
  | [] => [r]
  | x :: rest =>
      if String.eqb (v_id x) (v_id r) then r :: rest else x :: put_record r rest
  end.

Definition mem_upsert (store : gmap string (list Vector)) (vs : list Vector)
    (ns : string) : gmap string (list Vector) :=
  <[ ns := fold_left (fun l r => put_record r l) vs (default [] (store !! ns)) ]> store.

Definition score_ge (a b : ScoredVector) : Prop :=
  leb (sv_score b) (sv_score a) = true.

#[global] Instance score_ge_dec : RelDecision score_ge.
Proof. intros a b. unfold score_ge. apply _. Defined.

Section MemBackend.

Variable embed : string -> vector.
Variable similarity : vector -> vector -> float.

Definition mem_match (q : vector) (r : Vector) : ScoredVector :=
  {| sv_id := v_id r; sv_score := similarity q (v_values r);
     sv_metadata := Some (v_metadata r) |}.

Definition mem_query (store : gmap string (list Vector)) (ns : string)
    (q : vector) (top_k : Z) : QueryResponse :=
  {| matches :=
       take (Z.to_nat top_k)
         (merge_sort score_ge (mem_match q <$> default [] (store !! ns))) |}.

Definition mem_backend : backend := {|
  world := mem_world;
  on_embeddings_create := fun _ input w => (Ok (embed <$> input), w);
  on_pinecone_client := fun _ w => (Ok tt, w);
  on_list_indexes := fun w => (Ok (mem_indexes w), w);
  on_create_index := fun name _ _ _ _ w =>
    (Ok tt, {| mem_store := mem_store w; mem_next_id := mem_next_id w;
               mem_indexes := mem_indexes w ++ [name];
               mem_faults := mem_faults w |});
  on_open_index := fun _ w => (Ok tt, w);
  on_index_query := fun _ ns q top_k _ w =>
    match mem_faults w with
    | true :: faults =>
        (Raise (BackendError "unavailable"),
         {| mem_store := mem_store w; mem_next_id := mem_next_id w;
            mem_indexes := mem_indexes w; mem_faults := faults |})
    | false :: faults =>
        (Ok (mem_query (mem_store w) ns q top_k),
         {| mem_store := mem_store w; mem_next_id := mem_next_id w;
            mem_indexes := mem_indexes w; mem_faults := faults |})
    | [] => (Ok (mem_query (mem_store w) ns q top_k), w)
    end;
  on_index_upsert := fun _ vs ns w =>
    (Ok tt, {| mem_store := mem_upsert (mem_store w) vs ns;
               mem_next_id := mem_next_id w;
               mem_indexes := mem_indexes w; mem_faults := mem_faults w |});
  on_uuid4 := fun w =>
    (uid (mem_next_id w),
     {| mem_store := mem_store w; mem_next_id := S (mem_next_id w);
        mem_indexes := mem_indexes w; mem_faults := mem_faults w |});
|}.

End MemBackend.

(** Test data. *)

Definition of_Z (z : Z) : float := binary_normalize prec emax z 0 false.

Definition dot (u v : vector) : float :=
  fold_left add (zip_with mul u v) zero.

(** Cosine similarity, computed in binary64. *)
Definition cosine (u v : vector) : float :=
  div (dot u v) (mul (sqrt (dot u u)) (sqrt (dot v v))).

Definition demo_config : Config :=
  {| PINECONE_API_KEY := "key"; PINECONE_INDEX_NAME := "xray-rag";
     EMBEDDING_MODEL := "text-embedding-3-small" |}.

Definition demo_store : PineconeRAG :=
  {| enabled := true; index := Some "xray-rag"%string |}.

(** A toy embedding: the length of the text and a constant. *)
Definition demo_embed (text : string) : vector :=
  [of_Z (Z.of_nat (String.length text)); of_Z 1].

Definition demo_world_at (next_id : nat) (faults : list bool) : mem_world :=
  {| mem_store := ∅; mem_next_id := next_id;
     mem_indexes := ["xray-rag"%string]; mem_faults := faults |}.

Definition demo_world (faults : list bool) : mem_world :=
  demo_world_at 0 faults.

Definition demo_backend : backend := mem_backend demo_embed cosine.

(** What a disabled store returns to a method call. *)
Definition empty_return (m : method) : returned :=
  match m with
  | call_retrieve _ _ _ => from_retrieve []
  | call_upsert_docs _ _ => from_upsert_docs
  end.

(** Whether an event is a call that raised. *)
Definition event_raised (ev : event) : bool :=
  match ev with
  | Event _ (Raise _) => true
  | Event _ (Ok _) => false
  end.

(** A query event answered from [store] by the reference index. *)
Definition answered_from (similarity : vector -> vector -> float)
    (store : gmap string (list Vector)) (ev : event) : Prop :=
  match ev with
  | Event c r =>
      match c in call R return res R -> Prop with
      | index_query _ ns q top_k _ =>
          fun r => r = Ok (mem_query similarity store ns q top_k)
      | _ => fun _ => True
      end r
  end.

(** ** Auxiliary predicates on the rounding of [SpecFloat] *)

(** A shift record with no bit lost so far. *)
Definition exact_record (mrs : shr_record) : Prop :=
  shr_r mrs = false /\ shr_s mrs = false.

(** A mantissa [m] at exponent [e] whose value [m * 2 ^ e] is at most one,
    with the location exact when it is one. *)
Definition at_most_one (m e : Z) (l : location) : Prop :=
  0 <= m <= 2 ^ (- e) /\ e <= -52 /\ (m = 2 ^ (- e) -> l = loc_Exact).


(** ** What the normaliser is specified to compute *)

(** With a strictly positive maximum [m], the result is the curve divided
    by [m], and its maximum is exactly 1.0. *)
Definition normalized_to_unit_maximum (intensity : list float) : Prop :=
  forall m,
    is_maximum_of m intensity ->
    ltb zero m = true ->
    normalize_intensity intensity = Ok ((fun x => div x m) <$> intensity)
    /\ np_max ((fun x => div x m) <$> intensity) = Ok one.

(** ** Sample curves *)

Definition half : float := div (of_Z 1) (of_Z 2).

(** Energies 1..5 and a curve with one peak in the middle. *)
Definition demo_energy : list float := of_Z <$> [1; 2; 3; 4; 5].
Definition demo_intensity : list float := [of_Z 0; half; of_Z 1; half; of_Z 0].

(** A raw curve, before normalisation, and a curve below zero. *)
Definition demo_raw : list float := of_Z <$> [1; 4; 2].
Definition demo_negative : list float := of_Z <$> [-3; -1; -2].

(** A flat curve at the default threshold. *)
Definition demo_flat : list float := replicate 5 lit_0_2.

(** A boolean check of [is_maximum_of]. *)
Definition is_maximum_ofb (x : float) (l : list float) : bool :=
  existsb (eqb x) l && forallb (fun y => leb y x) l.

Definition demo_config_no_key : Config :=
  {| PINECONE_API_KEY := EmptyString; PINECONE_INDEX_NAME := "xray-rag";
     EMBEDDING_MODEL := "text-embedding-3-small" |}.

(** A namespace holding one record with a text and one whose metadata dict
    is empty. *)
Definition demo_world_stocked : mem_world :=
  {| mem_store :=
       {[ "default"%string :=
            [ {| v_id := "doc-1"; v_values := demo_embed "a";
                 v_metadata := {[ "text"%string := MStr "a" ]} |};
              {| v_id := "doc-2"; v_values := demo_embed "abc";
                 v_metadata := ∅ |} ] ]};
     mem_next_id := 0; mem_indexes := ["xray-rag"%string]; mem_faults := [] |}.

(** An index that answers every query with [resp], whatever the vector;
    the embeddings are those of the toy embedding. *)
Definition answering_backend (resp : QueryResponse) : backend := {|
  world := unit;
  on_embeddings_create := fun _ input w => (Ok (demo_embed <$> input), w);
  on_pinecone_client := fun _ w => (Ok tt, w);
  on_list_indexes := fun w => (Ok ["xray-rag"%string], w);
  on_create_index := fun _ _ _ _ _ w => (Ok tt, w);
  on_open_index := fun _ w => (Ok tt, w);
  on_index_query := fun _ _ _ _ _ w => (Ok resp, w);
  on_index_upsert := fun _ _ _ w => (Ok tt, w);
  on_uuid4 := fun w => ("id-0"%string, w);
|}.

(** A response whose second match is a record stored without metadata. *)
Definition demo_bare_response : QueryResponse :=
  {| matches :=
       [ {| sv_id := "doc-1"; sv_score := one;
            sv_metadata := Some {[ "text"%string := MStr "a" ]} |};
         {| sv_id := "doc-3"; sv_score := lit_0_99; sv_metadata := None |} ] |}.

(** * Further code of the repository *)

(** ** The numeric path of [analyze_spectrum] in backend/main.py *)

(** [np.signbit] *)
Definition signbit (x : float) : bool :=
  match x with
  | S754_zero s | S754_infinity s | S754_finite s _ _ => s
  | S754_nan => false
  end.

(** [np.minimum] and [np.min], as [np.maximum] and [np.max]; as there, the
    sign of a minimum that is a zero is not fixed by the source. *)
Definition np_minimum (a b : float) : float :=
  if leb a b || is_nan a then a else b.

Definition np_min (a : list float) : res float :=
  match a with
  | [] => Raise ValueError
  | x :: l => Ok (fold_left np_minimum l x)
  end.

Record SpectrumCurvePoint : Type := {
  cp_energy : float;
  cp_intensity : float;
}.

(** The fields of [SpectrumAnalysisResult] that do not come from the
    language model. *)
Record SpectrumAnalysis : Type := {
  num_points : Z;
  min_energy : float;
  max_energy : float;
  max_intensity : float;
  normalized : bool;
  peaks : list SpectrumFeature;
  curve : list SpectrumCurvePoint;
}.

(** How the handler ends: an [HTTPException] with its status, another
    exception, or the result. *)
Inductive outcome (A : Type) : Type :=
| Rejected (status : Z)
| Crashed (e : exn)
| Returned (a : A).
Arguments Rejected {A} status.
Arguments Crashed {A} e.
Arguments Returned {A} a.

Definition crash_bind {A C} (r : res A) (k : A -> outcome C) : outcome C :=
  match r with
  | Ok a => k a
  | Raise e => Crashed e
  end.

(** The built-ins [min] and [max] on a list of floats: [ValueError] on the
    empty list, otherwise the first element, replaced by each later one that
    compares below (above) the value held. *)
Definition py_min (l : list float) : res float :=
  match l with
  | [] => Raise ValueError
  | x :: r => Ok (fold_left (fun m y => if ltb y m then y else m) r x)
  end.

Definition py_max (l : list float) : res float :=
  match l with
  | [] => Raise ValueError
  | x :: r => Ok (fold_left (fun m y => if ltb m y then y else m) r x)
  end.

(** [analyze_spectrum] from the parsed arrays on. The statistics computed
    for the prompt can raise and are kept, their values go to the prompt
    only; the call of the language model is left out: it sits in a [try]
    that catches every exception and only fills [llm_summary] and
    [llm_cot]. *)
Definition analyze_spectrum_numeric (energy intensity : list float)
    : outcome SpectrumAnalysis :=
  if py_len energy =? 0 then Rejected 400
  else
    crash_bind (normalize_intensity intensity) (fun norm_intensity =>
    let curve :=
      zip_with (fun e i => {| cp_energy := e; cp_intensity := i |})
        energy norm_intensity in
    crash_bind (detect_peaks energy norm_intensity 5 lit_0_2) (fun peaks =>
    let energies := cp_energy <$> curve in
    let intensities := cp_intensity <$> curve in
    crash_bind (py_min energies) (fun _ =>
    crash_bind (py_max energies) (fun _ =>
    crash_bind (py_max intensities) (fun _ =>
    crash_bind (np_min energy) (fun lo =>
    crash_bind (np_max energy) (fun hi =>
    crash_bind (np_max intensity) (fun top =>
    Returned {| num_points := py_len energy; min_energy := lo;
                max_energy := hi; max_intensity := top; normalized := true;
                peaks := peaks; curve := curve |})))))))).

(** The feature of position [i], when both curves reach it. *)
Definition feature_of (energy intensity : list float) (i : Z)
    : SpectrumFeature :=
  {| peak_energy := default zero (sample energy i);
     peak_intensity := default zero (sample intensity i) |}.

(** A raw curve of five samples, one of twelve with its maximum in the
    middle, and one of twelve without a positive sample, its maximum 0 at a
    position that the default window examines. *)
Definition demo_raw_curve : list float := of_Z <$> [1; 4; 2; 8; 3].
Definition demo_long_energy : list float := of_Z <$> seqZ 1 12.
Definition demo_long_curve : list float :=
  of_Z <$> [1; 2; 3; 4; 5; 6; 20; 6; 5; 4; 3; 2].
Definition demo_long_negative : list float :=
  of_Z <$> [-3; -1; -2; -5; -4; -1; 0; -2; -6; -1; -3; -2].

(** ** The process-wide store of backend/pinecone_rag.py *)

Definition toy_docs : list string :=
  ["X-ray absorption spectroscopy (XAS) probes unoccupied electronic states and local structure.";
   "Near-edge features in XAS can be related to oxidation states and coordination geometry.";
   "Extended X-ray absorption fine structure (EXAFS) oscillations encode radial distribution of neighboring atoms.";
   "Synchrotron X-ray sources provide high brightness and tunable energy for advanced spectroscopy."]%string.

(** What [get_rag_store] hands back for the store object it holds. *)
Definition store_if_enabled (rag : PineconeRAG) : option PineconeRAG :=
  if enabled rag then Some rag else None.

(** [get_rag_store], over the module global [_rag]. The program answers the
    value of the global after the call, together with what the call returns
    or raises: an exception of the constructor leaves the global as it was,
    an exception of the first ingestion comes after the assignment. *)
Definition get_rag_store (cfg : Config) (rag_global : option PineconeRAG)
    : prog (option PineconeRAG * res (option PineconeRAG)) :=
  match rag_global with
  | None =>
      (made <- attempt (PineconeRAG_init cfg) ;;
       match made with
       | Raise e => Ret (None, Raise e)
       | Ok rag =>
           if enabled rag then
             ingested <- attempt (upsert_docs cfg rag toy_docs "default") ;;
             match ingested with
             | Raise e => Ret (Some rag, Raise e)
             | Ok _ => Ret (Some rag, Ok (store_if_enabled rag))
             end
           else Ret (Some rag, Ok (store_if_enabled rag))
       end)%prog
  | Some rag => Ret (Some rag, Ok (store_if_enabled rag))
  end.

(** The first two statements of [chat_message] in backend/main.py:
    [rag_store = get_rag_store()] and
    [retrieved = rag_store.retrieve(req.message, k=3)]. *)
Definition chat_retrieve (cfg : Config) (rag_global : option PineconeRAG)
    (message : string)
    : prog (option PineconeRAG * res (list result_row)) :=
  (got <- get_rag_store cfg rag_global ;;
   match got with
   | (g, Raise e) => Ret (g, Raise e)
   | (g, Ok None) => Ret (g, Raise AttributeError)
   | (g, Ok (Some rag_store)) =>
       retrieved <- attempt (retrieve cfg rag_store message 3 "default") ;;
       Ret (g, retrieved)
   end)%prog.

(** Which events create an index, and how many records an event upserts. *)
Definition is_create_index (ev : event) : bool :=
  match ev with
  | Event c _ => match c with create_index _ _ _ _ _ => true | _ => false end
  end.

Definition upsert_size (ev : event) : nat :=
  match ev with
  | Event c _ => match c with index_upsert _ vs _ => length vs | _ => 0%nat end
  end.

(** A backend whose index is down: every query and every upsert raises; the
    Pinecone client and the embedding provider are up or down as told. *)
Definition outage_backend (client_up embed_up : bool) : backend := {|
  world := unit;
  on_embeddings_create := fun _ input w =>
    if embed_up then (Ok (demo_embed <$> input), w)
    else (Raise (BackendError "no embeddings"), w);
  on_pinecone_client := fun _ w =>
    if client_up then (Ok tt, w) else (Raise (BackendError "no client"), w);
  on_list_indexes := fun w => (Ok ["xray-rag"%string], w);
  on_create_index := fun _ _ _ _ _ w => (Ok tt, w);
  on_open_index := fun _ w => (Ok tt, w);
  on_index_query := fun _ _ _ _ _ w => (Raise (BackendError "unavailable"), w);
  on_index_upsert := fun _ _ _ w => (Raise (BackendError "unavailable"), w);
  on_uuid4 := fun w => ("id-0"%string, w);
|}.

(** The reference index after one text has been stored in [ns] under the
    next free id. *)
Definition stocked_with (embed : string -> vector) (w : mem_world)
    (ns text : string) : mem_world :=
  {| mem_store := <[ ns := [new_vector (uid (mem_next_id w)) (embed text) text] ]>
                    (mem_store w);
     mem_next_id := S (mem_next_id w);
     mem_indexes := mem_indexes w;
     mem_faults := mem_faults w |}.

(** The first call of [get_rag_store] with a key, on the reference index
    with an empty namespace: the records the ingestion stores, the index
    after it, and the calls made, in order. *)
Definition demo_toy_records : list Vector :=
  imap (fun i text => new_vector (uid i) (demo_embed text) text) toy_docs.

Definition demo_world_ingested : mem_world :=
  {| mem_store := {[ "default"%string := demo_toy_records ]};
     mem_next_id := 4; mem_indexes := ["xray-rag"%string]; mem_faults := [] |}.

Definition demo_first_call_trace : list event :=
  [Event (pinecone_client "key") (Ok tt);
   Event list_indexes (Ok ["xray-rag"%string]);
   Event (open_index "xray-rag") (Ok tt);
   Event (embeddings_create "text-embedding-3-small" toy_docs)
     (Ok (demo_embed <$> toy_docs))]
  ++ mjoin (imap (fun i text =>
                    [query_event "xray-rag" "default" (demo_embed text)
                       (Ok {| matches := [] |});
                     Event uuid4 (Ok (uid i))]) toy_docs)
  ++ [Event (index_upsert "xray-rag" demo_toy_records "default") (Ok tt)].
(** ** Order facts of [SFcompare] *)

Section FloatOrder.

Ltac cmp_cases :=
  repeat match goal with
  | |- context [Z.compare ?a ?b] => destruct (Z.compare_spec a b)
  | H : context [Z.compare ?a ?b] |- _ => destruct (Z.compare_spec a b)
  | |- context [Pos.compare_cont Eq ?a ?b] =>
      change (Pos.compare_cont Eq a b) with (Pos.compare a b) in *;
      destruct (Pos.compare_spec a b)
  | H : context [Pos.compare_cont Eq ?a ?b] |- _ =>
      change (Pos.compare_cont Eq a b) with (Pos.compare a b) in *;
      destruct (Pos.compare_spec a b)
  end.

Ltac float_cases :=
  unfold leb, eqb, ltb, SFleb, SFeqb, SFltb, SFcompare;
  intros;
  repeat match goal with
  | x : spec_float |- _ => destruct x
  | b : bool |- _ => destruct b
  end;
  try congruence; try discriminate;
  cmp_cases; simpl in *;
  try congruence; try discriminate; try lia; auto.

Lemma leb_not_nan_l x y : leb x y = true -> is_nan x = false.
Proof. destruct x, y; try reflexivity; discriminate. Qed.

Lemma leb_not_nan_r x y : leb x y = true -> is_nan y = false.
Proof. destruct x, y; try reflexivity; discriminate. Qed.

Lemma leb_total x y :
  is_nan x = false -> is_nan y = false -> leb x y = true \/ leb y x = true.
Proof. float_cases; auto. Qed.

Lemma leb_trans x y z : leb x y = true -> leb y z = true -> leb x z = true.
Proof. float_cases. Qed.

Lemma leb_antisym x y : leb x y = true -> leb y x = true -> eqb x y = true.
Proof. float_cases. Qed.

Lemma eqb_leb x y : eqb x y = true -> leb x y = true.
Proof. float_cases. Qed.

Lemma eqb_sym x y : eqb x y = true -> eqb y x = true.
Proof. float_cases. Qed.

Lemma eqb_geb x y : eqb x y = true -> leb y x = true.
Proof. intros H. apply eqb_leb, eqb_sym, H. Qed.

Lemma leb_refl x : is_nan x = false -> leb x x = true.
Proof. intros H. destruct (leb_total x x H H); assumption. Qed.

Lemma eqb_nan_r x : eqb x nan = false.
Proof. destruct x; reflexivity. Qed.

Lemma ltb_leb x y : ltb x y = true -> leb x y = true.
Proof. float_cases. Qed.

Lemma ltb_not_leb x y : ltb x y = true -> leb y x = false.
Proof. float_cases. Qed.

End FloatOrder.


(** ** [np.max] is a maximum *)

Section NumpyMax.

Lemma np_maximum_cases a b : np_maximum a b = a \/ np_maximum a b = b.
Proof. unfold np_maximum. destruct (leb b a || is_nan a); auto. Qed.

Lemma np_maximum_nan_l a b : is_nan a = true -> np_maximum a b = a.
Proof. unfold np_maximum. intros ->. rewrite orb_true_r. reflexivity. Qed.

Lemma np_maximum_nan_r a b : is_nan b = true -> is_nan (np_maximum a b) = true.
Proof.
  unfold np_maximum. intros Hb.
  destruct (leb b a) eqn:Hle.
  - apply leb_not_nan_l in Hle. congruence.
  - simpl. destruct (is_nan a) eqn:Ha; assumption.
Qed.

Lemma fold_maximum_elem l x : fold_left np_maximum l x ∈ x :: l.
Proof.
  revert x. induction l as [|b l IH]; intros x; simpl.
  - apply list_elem_of_here.
  - specialize (IH (np_maximum x b)).
    apply elem_of_cons in IH as [->|IH].
    + destruct (np_maximum_cases x b) as [->| ->].
      * apply list_elem_of_here.
      * apply list_elem_of_further, list_elem_of_here.
    + do 2 apply list_elem_of_further. exact IH.
Qed.

Lemma fold_maximum_nan l x :
  is_nan x = true -> is_nan (fold_left np_maximum l x) = true.
Proof.
  revert x. induction l as [|b l IH]; intros x Hx; simpl; [exact Hx|].
  apply IH. rewrite np_maximum_nan_l by exact Hx. exact Hx.
Qed.

Lemma fold_maximum_upper l x y :
  is_nan (fold_left np_maximum l x) = false ->
  y ∈ x :: l -> leb y (fold_left np_maximum l x) = true.
Proof.
  revert x y. induction l as [|b l IH]; intros x y Hm Hy; simpl in *.
  - apply list_elem_of_singleton in Hy as ->. apply leb_refl, Hm.
  - assert (Hmx : is_nan (np_maximum x b) = false).
    { destruct (is_nan (np_maximum x b)) eqn:E; [|reflexivity].
      rewrite (fold_maximum_nan l _ E) in Hm. discriminate. }
    assert (Hx : is_nan x = false).
    { destruct (is_nan x) eqn:E; [|reflexivity].
      rewrite (np_maximum_nan_l x b E) in Hmx. congruence. }
    assert (Hb : is_nan b = false).
    { destruct (is_nan b) eqn:E; [|reflexivity].
      rewrite (np_maximum_nan_r x b E) in Hmx. discriminate. }
    assert (Htop : leb (np_maximum x b) (fold_left np_maximum l (np_maximum x b)) = true).
    { apply IH; [exact Hm | apply list_elem_of_here]. }
    assert (Hxb : leb x (np_maximum x b) = true /\ leb b (np_maximum x b) = true).
    { unfold np_maximum. rewrite Hx, orb_false_r.
      destruct (leb b x) eqn:Hle.
      - split; [apply leb_refl, Hx | exact Hle].
      - split; [|apply leb_refl, Hb].
        destruct (leb_total x b Hx Hb) as [H|H]; [exact H | congruence]. }
    destruct Hxb as [Hx' Hb'].
    apply elem_of_cons in Hy as [->|Hy]; [eapply leb_trans; eassumption|].
    apply elem_of_cons in Hy as [->|Hy]; [eapply leb_trans; eassumption|].
    apply IH; [exact Hm | apply list_elem_of_further, Hy].
Qed.

(** [x == np.max(l)] holds exactly when [x] equals the maximum of [l]. *)
Lemma np_max_is_max l m x :
  np_max l = Ok m -> eqb x m = true <-> is_maximum_of x l.
Proof.
  destruct l as [|a l]; [discriminate|]. simpl. intros [= <-].
  set (m := fold_left np_maximum l a).
  pose proof (fold_maximum_elem l a) as Hin. fold m in Hin.
  split.
  - intros Heq.
    assert (Hm : is_nan m = false) by (eapply leb_not_nan_r, eqb_leb, Heq).
    split.
    + exists m. split; assumption.
    + intros y Hy. eapply leb_trans; [apply fold_maximum_upper; eassumption|].
      apply eqb_geb, Heq.
  - intros [[y [Hy Hxy]] Hup].
    apply leb_antisym; [|apply Hup, Hin].
    assert (Hm : is_nan m = false) by (eapply leb_not_nan_l, Hup, Hin).
    eapply leb_trans; [apply eqb_leb, Hxy|].
    apply fold_maximum_upper; assumption.
Qed.

Lemma np_max_elem l m : np_max l = Ok m -> m ∈ l.
Proof.
  destruct l as [|a l]; [discriminate|]. simpl. intros [= <-].
  apply fold_maximum_elem.
Qed.

Lemma np_max_nonempty l : l <> [] -> exists m, np_max l = Ok m.
Proof. destruct l; [congruence|]. simpl. eauto. Qed.

End NumpyMax.

(** ** Division in binary64 *)

Section Division.

Lemma digits2_pos_bounds (p : positive) :
  2 ^ (Zpos (digits2_pos p) - 1) <= Zpos p < 2 ^ Zpos (digits2_pos p).
Proof.
  induction p as [p IH|p IH|]; cbn [digits2_pos].
  - rewrite Pos2Z.inj_succ.
    replace (Z.succ (Z.pos (digits2_pos p)) - 1) with (Z.succ (Z.pos (digits2_pos p) - 1)) by lia.
    rewrite !Z.pow_succ_r by lia. lia.
  - rewrite Pos2Z.inj_succ.
    replace (Z.succ (Z.pos (digits2_pos p)) - 1) with (Z.succ (Z.pos (digits2_pos p) - 1)) by lia.
    rewrite !Z.pow_succ_r by lia. lia.
  - cbn. lia.
Qed.

Lemma digits_le_of_le_pow2 (p : positive) (k : Z) :
  0 <= k -> Zpos p <= 2 ^ k -> Zpos (digits2_pos p) <= k + 1.
Proof.
  intros Hk Hp. pose proof (digits2_pos_bounds p) as [Hlo _].
  destruct (Z.le_gt_cases (Zpos (digits2_pos p)) (k + 1)) as [H|H]; [exact H|].
  assert (Hpow : 2 ^ (k + 1) <= 2 ^ (Zpos (digits2_pos p) - 1))
    by (apply Z.pow_le_mono_r; lia).
  rewrite Z.pow_add_r in Hpow by lia. change (2 ^ 1) with 2 in Hpow.
  assert (0 < 2 ^ k) by (apply Z.pow_pos_nonneg; lia). lia.
Qed.

(** What validity says of a finite binary64 number. *)
Lemma valid_finite s m e :
  valid (S754_finite s m e) = true ->
  Z.max (Zpos (digits2_pos m) + e - 53) (-1074) = e /\ e <= 971.
Proof.
  unfold valid, valid_binary, bounded, canonical_mantissa, fexp, SpecFloat.emin, prec, emax.
  intros H. apply andb_true_iff in H as [H1 H2].
  apply Z.eqb_eq in H1. apply Z.leb_le in H2. split; [exact H1 | exact H2].
Qed.

(** Between two valid positive finite numbers, [<=] is [<=] of the values
    [m * 2 ^ e]. *)
Lemma leb_finite_value mx ex my ey :
  valid (S754_finite false mx ex) = true ->
  valid (S754_finite false my ey) = true ->
  leb (S754_finite false mx ex) (S754_finite false my ey) = true ->
  ex <= ey
  /\ Zpos mx <= Zpos my * 2 ^ (ey - ex)
  /\ Zpos (digits2_pos mx) + ex <= Zpos (digits2_pos my) + ey.
Proof.
  intros Hx%valid_finite Hy%valid_finite Hle.
  destruct Hx as [Hx _], Hy as [Hy _].
  pose proof (digits2_pos_bounds mx) as [Hxlo Hxhi].
  pose proof (digits2_pos_bounds my) as [Hylo Hyhi].
  unfold leb, SFleb, SFcompare in Hle.
  change (Pos.compare_cont Eq mx my) with (Pos.compare mx my) in Hle.
  destruct (Z.compare_spec ex ey) as [He|He|He]; [| |discriminate].
  - subst ey. rewrite Z.sub_diag, Z.mul_1_r.
    destruct (Pos.compare_spec mx my) as [Hm|Hm|Hm]; [| |discriminate].
    + subst. lia.
    + split; [lia|]. split; [lia|].
      assert (Zpos (digits2_pos mx) <= Zpos (digits2_pos my)); [|lia].
      destruct (Z.le_gt_cases (Zpos (digits2_pos mx)) (Zpos (digits2_pos my))) as [?|Hgt]; [assumption|].
      assert (2 ^ Zpos (digits2_pos my) <= 2 ^ (Zpos (digits2_pos mx) - 1))
        by (apply Z.pow_le_mono_r; lia).
      lia.
  - assert (Hdy : Zpos (digits2_pos my) = 53) by lia.
    assert (Hdx : Zpos (digits2_pos mx) <= 53) by lia.
    split; [lia|]. split; [|lia].
    rewrite Hdy in Hylo. change (2 ^ (53 - 1)) with 4503599627370496 in Hylo.
    assert (Hpow : 2 ^ 1 <= 2 ^ (ey - ex)) by (apply Z.pow_le_mono_r; lia).
    change (2 ^ 1) with 2 in Hpow.
    assert (Hmx : Zpos mx < 2 ^ 53).
    { eapply Z.lt_le_trans; [exact Hxhi|]. apply Z.pow_le_mono_r; lia. }
    change (2 ^ 53) with 9007199254740992 in Hmx. nia.
Qed.


(** *** Shifting a mantissa right *)

Lemma shr_1_m mrs : 0 <= shr_m mrs -> shr_m (shr_1 mrs) = shr_m mrs / 2.
Proof.
  destruct mrs as [m r s]. cbn [shr_m shr_1].
  destruct m as [|[p|p|]|p]; intros Hm; cbn [shr_m]; try lia; try reflexivity.
  - apply Z.div_unique with (r := 1); lia.
  - apply Z.div_unique with (r := 0); lia.
Qed.

Lemma shr_1_double mrs a :
  shr_m mrs = 2 * a -> 0 <= a -> exact_record mrs ->
  shr_m (shr_1 mrs) = a /\ exact_record (shr_1 mrs).
Proof.
  destruct mrs as [m r s]. unfold exact_record. cbn [shr_m shr_r shr_s shr_1].
  intros Hm Ha [-> ->].
  destruct m as [|[p|p|]|p]; cbn; try lia; (split; [lia | split; reflexivity]).
Qed.

Lemma pow2_xO p : 2 ^ Zpos p~0 = 2 ^ Zpos p * 2 ^ Zpos p.
Proof.
  replace (Zpos p~0) with (Zpos p + Zpos p) by lia.
  apply Z.pow_add_r; lia.
Qed.

Lemma pow2_xI p : 2 ^ Zpos p~1 = 2 * (2 ^ Zpos p * 2 ^ Zpos p).
Proof.
  replace (Zpos p~1) with (1 + (Zpos p + Zpos p)) by lia.
  rewrite !Z.pow_add_r by lia. reflexivity.
Qed.

Lemma pow2_pos k : 0 <= k -> 0 < 2 ^ k.
Proof. intros. apply Z.pow_pos_nonneg; lia. Qed.

Lemma iter_pos_shr_m p mrs :
  0 <= shr_m mrs ->
  shr_m (SpecFloat.iter_pos shr_1 p mrs) = shr_m mrs / 2 ^ Zpos p.
Proof.
  revert mrs. induction p as [p IH|p IH|]; intros mrs Hm; cbn [SpecFloat.iter_pos].
  - pose proof (pow2_pos (Zpos p) ltac:(lia)) as Hp.
    assert (H1 : 0 <= shr_m (shr_1 mrs)).
    { rewrite shr_1_m by exact Hm. apply Z.div_pos; lia. }
    assert (H2 : 0 <= shr_m (SpecFloat.iter_pos shr_1 p (shr_1 mrs))).
    { rewrite IH by exact H1. apply Z.div_pos; [exact H1 | exact Hp]. }
    rewrite IH by exact H2. rewrite IH by exact H1. rewrite shr_1_m by exact Hm.
    rewrite !Z.div_div by lia. rewrite pow2_xI. f_equal; lia.
  - pose proof (pow2_pos (Zpos p) ltac:(lia)) as Hp.
    assert (H1 : 0 <= shr_m (SpecFloat.iter_pos shr_1 p mrs)).
    { rewrite IH by exact Hm. apply Z.div_pos; [exact Hm | exact Hp]. }
    rewrite IH by exact H1. rewrite IH by exact Hm.
    rewrite Z.div_div by lia. rewrite pow2_xO. reflexivity.
  - rewrite shr_1_m by exact Hm. reflexivity.
Qed.

Lemma iter_pos_shr_multiple p mrs c :
  shr_m mrs = c * 2 ^ Zpos p -> 0 <= c -> exact_record mrs ->
  exact_record (SpecFloat.iter_pos shr_1 p mrs).
Proof.
  revert mrs c. induction p as [p IH|p IH|]; intros mrs c Hm Hc Hex;
    cbn [SpecFloat.iter_pos].
  - pose proof (pow2_pos (Zpos p) ltac:(lia)) as Hp.
    assert (Hm' : shr_m mrs = 2 * (c * 2 ^ Zpos p * 2 ^ Zpos p)).
    { rewrite Hm, pow2_xI. lia. }
    destruct (shr_1_double mrs _ Hm') as [H1 H1e]; [nia | exact Hex |].
    assert (H2e : exact_record (SpecFloat.iter_pos shr_1 p (shr_1 mrs))).
    { apply (IH _ (c * 2 ^ Zpos p)); [exact H1 | nia | exact H1e]. }
    apply (IH _ c); [|exact Hc | exact H2e].
    rewrite iter_pos_shr_m by (rewrite H1; nia).
    rewrite H1. apply Z.div_mul. lia.
  - pose proof (pow2_pos (Zpos p) ltac:(lia)) as Hp.
    assert (Hm' : shr_m mrs = c * 2 ^ Zpos p * 2 ^ Zpos p).
    { rewrite Hm, pow2_xO. lia. }
    assert (H1e : exact_record (SpecFloat.iter_pos shr_1 p mrs)).
    { apply (IH _ (c * 2 ^ Zpos p)); [exact Hm' | nia | exact Hex]. }
    apply (IH _ c); [|exact Hc | exact H1e].
    rewrite iter_pos_shr_m by (rewrite Hm'; nia).
    rewrite Hm'. apply Z.div_mul. lia.
  - apply (shr_1_double mrs c); [rewrite Hm; change (2 ^ 1) with 2; lia | exact Hc | exact Hex].
Qed.

Lemma loc_of_shr_record_of_loc m l :
  loc_of_shr_record (shr_record_of_loc m l) = l.
Proof. destruct l as [|[| |]]; reflexivity. Qed.

Lemma shr_m_record_of_loc m l : shr_m (shr_record_of_loc m l) = m.
Proof. destruct l as [|[| |]]; reflexivity. Qed.

Lemma exact_record_loc mrs : exact_record mrs -> loc_of_shr_record mrs = loc_Exact.
Proof. destruct mrs as [m r s]. intros [H1 H2]. cbn in *. subst. reflexivity. Qed.


(** *** Rounding a quotient that is at most one *)

Lemma fexp_le d : d <= 1 -> fexp prec emax d <= -52.
Proof. unfold fexp, SpecFloat.emin, prec, emax. lia. Qed.

Lemma Zdigits2_le_one m e : 0 <= m <= 2 ^ (- e) -> e <= -52 -> Zdigits2 m + e <= 1.
Proof.
  intros Hm He. destruct m as [|p|p]; cbn [Zdigits2]; [lia| |lia].
  pose proof (digits_le_of_le_pow2 p (- e)). lia.
Qed.

Lemma shr_fexp_at_most_one m e l :
  at_most_one m e l ->
  at_most_one (shr_m (shr_fexp prec emax m e l).1) (shr_fexp prec emax m e l).2
    (loc_of_shr_record (shr_fexp prec emax m e l).1).
Proof.
  intros (Hm & He & Hex). unfold shr_fexp, shr.
  pose proof (fexp_le _ (Zdigits2_le_one m e Hm He)) as Hf.
  destruct (fexp prec emax (Zdigits2 m + e) - e) as [|p|p] eqn:Hn; cbn [fst snd];
    rewrite ?shr_m_record_of_loc, ?loc_of_shr_record_of_loc;
    try (split; [exact Hm | split; [exact He | exact Hex]]).
  assert (He1 : e + Zpos p <= -52) by lia.
  assert (Hpow : 2 ^ (- e) = 2 ^ (- (e + Zpos p)) * 2 ^ Zpos p).
  { rewrite <- Z.pow_add_r by lia. f_equal. lia. }
  pose proof (pow2_pos (Zpos p) ltac:(lia)) as Hp.
  rewrite iter_pos_shr_m by (rewrite shr_m_record_of_loc; lia).
  rewrite shr_m_record_of_loc.
  split; [split|split; [exact He1|]].
  - apply Z.div_pos; lia.
  - apply Z.div_le_upper_bound; [exact Hp|]. rewrite Z.mul_comm, <- Hpow. lia.
  - intros Hq.
    assert (Hmq : m = 2 ^ (- e)).
    { pose proof (Z.mul_div_le m (2 ^ Zpos p) Hp) as Hle.
      rewrite Hq, Z.mul_comm, <- Hpow in Hle. lia. }
    apply exact_record_loc.
    apply (iter_pos_shr_multiple p _ (2 ^ (- (e + Zpos p)))).
    + rewrite shr_m_record_of_loc, Hmq. exact Hpow.
    + apply Z.lt_le_incl, pow2_pos. lia.
    + rewrite (Hex Hmq). split; reflexivity.
Qed.

Lemma round_at_most_one m e l :
  at_most_one m e l -> at_most_one (round_nearest_even m l) e loc_Exact.
Proof.
  intros (Hm & He & Hex).
  assert (Hlt : l <> loc_Exact -> m + 1 <= 2 ^ (- e)).
  { intros Hl. destruct (Z.eq_dec m (2 ^ (- e))) as [E|E]; [elim Hl; auto | lia]. }
  split; [|split; [exact He | reflexivity]].
  destruct l as [|[| |]]; cbn [round_nearest_even]; try lia.
  - destruct (Z.even m); [lia|]. assert (m + 1 <= 2 ^ (- e)) by (apply Hlt; discriminate). lia.
  - assert (m + 1 <= 2 ^ (- e)) by (apply Hlt; discriminate). lia.
Qed.

Lemma leb_finite_same_exponent m c e :
  Zpos m <= Zpos c ->
  leb (S754_finite false m e) (S754_finite false c e) = true.
Proof.
  intros Hm. unfold leb, SFleb, SFcompare. rewrite Z.compare_refl.
  change (Pos.compare_cont Eq m c) with (Pos.compare m c).
  destruct (Pos.compare_spec m c); [reflexivity|reflexivity|lia].
Qed.

Lemma leb_finite_lower_exponent m c e1 e2 :
  e1 < e2 ->
  leb (S754_finite false m e1) (S754_finite false c e2) = true.
Proof.
  intros He. unfold leb, SFleb, SFcompare.
  destruct (Z.compare_spec e1 e2); [lia | reflexivity | lia].
Qed.

Lemma binary_round_aux_le_one m e l :
  at_most_one m e l -> leb (binary_round_aux prec emax false m e l) one = true.
Proof.
  intros H1%shr_fexp_at_most_one. unfold binary_round_aux.
  destruct (shr_fexp prec emax m e l) as [mrs1 e1]. cbn [fst snd] in H1.
  apply round_at_most_one, shr_fexp_at_most_one in H1.
  destruct (shr_fexp prec emax (round_nearest_even (shr_m mrs1) (loc_of_shr_record mrs1))
              e1 loc_Exact) as [mrs2 e2].
  cbn [fst snd] in H1. destruct H1 as (Hm & He & _).
  destruct (shr_m mrs2) as [|m2|m2]; [reflexivity| |lia].
  unfold prec, emax. destruct (Z.leb_spec e2 (1024 - 53)); [|lia].
  unfold one.
  destruct (Z.eq_dec e2 (-52)) as [->|Hne].
  - apply leb_finite_same_exponent.
    change (2 ^ (- (-52))) with (Zpos 4503599627370496) in Hm. apply Hm.
  - apply leb_finite_lower_exponent. lia.
Qed.

(** *** Rounding with a negative sign *)

Lemma shr_fexp_nonneg m e l : 0 <= m -> 0 <= shr_m (shr_fexp prec emax m e l).1.
Proof.
  intros Hm. unfold shr_fexp, shr.
  destruct (fexp prec emax (Zdigits2 m + e) - e) as [|p|p]; cbn [fst];
    rewrite ?iter_pos_shr_m by (rewrite shr_m_record_of_loc; exact Hm);
    rewrite shr_m_record_of_loc; try exact Hm.
  apply Z.div_pos; [exact Hm | apply pow2_pos; lia].
Qed.

Lemma round_nonneg m l : 0 <= m -> 0 <= round_nearest_even m l.
Proof.
  intros Hm. destruct l as [|[| |]]; cbn [round_nearest_even]; try lia.
  destruct (Z.even m); lia.
Qed.

Lemma binary_round_aux_negative m e l :
  0 <= m -> leb (binary_round_aux prec emax true m e l) one = true.
Proof.
  intros Hm. unfold binary_round_aux.
  pose proof (shr_fexp_nonneg m e l Hm) as H1.
  destruct (shr_fexp prec emax m e l) as [mrs1 e1]. cbn [fst] in H1.
  pose proof (shr_fexp_nonneg _ e1 loc_Exact
                (round_nonneg _ (loc_of_shr_record mrs1) H1)) as H2.
  destruct (shr_fexp prec emax (round_nearest_even (shr_m mrs1) (loc_of_shr_record mrs1))
              e1 loc_Exact) as [mrs2 e2].
  cbn [fst] in H2.
  destruct (shr_m mrs2) as [|m2|m2]; [reflexivity| |lia].
  destruct (e2 <=? emax - prec); reflexivity.
Qed.

(** *** The quotient before rounding *)

Lemma new_location_0 nb : new_location nb 0 = loc_Exact.
Proof.
  unfold new_location, new_location_even, new_location_odd.
  destruct (Z.even nb); reflexivity.
Qed.

Lemma div_core_scaled m1 e1 m2 e2 :
  0 <= m1 -> 0 < m2 ->
  let e' := Z.min (fexp prec emax (Zdigits2 m1 + e1 - (Zdigits2 m2 + e2))) (e1 - e2) in
  let m' := m1 * 2 ^ (e1 - e2 - e') in
  SFdiv_core_binary prec emax m1 e1 m2 e2 = (m' / m2, e', new_location m2 (m' mod m2)).
Proof.
  intros Hm1 Hm2 e' m'. unfold SFdiv_core_binary. fold e'.
  assert (Hs : 0 <= e1 - e2 - e') by (subst e'; lia).
  assert (Hm' : match e1 - e2 - e' with
                | Zpos _ => Z.shiftl m1 (e1 - e2 - e')
                | Z0 => m1
                | Zneg _ => 0
                end = m').
  { subst m'. destruct (e1 - e2 - e') as [|p|p] eqn:E.
    - rewrite Z.pow_0_r. lia.
    - apply Z.shiftl_mul_pow2. lia.
    - lia. }
  rewrite Hm'. unfold Z.div, Z.modulo.
  destruct (Z.div_eucl m' m2) as [q r]. reflexivity.
Qed.

Lemma div_core_nonneg m1 e1 m2 e2 :
  0 <= (SFdiv_core_binary prec emax (Zpos m1) e1 (Zpos m2) e2).1.1.
Proof.
  rewrite div_core_scaled by lia. cbn [fst].
  apply Z.div_pos; [|lia].
  apply Z.mul_nonneg_nonneg; [lia|]. apply Z.pow_nonneg. lia.
Qed.

Lemma div_core_at_most_one mx ex my ey :
  ex <= ey ->
  Zpos mx <= Zpos my * 2 ^ (ey - ex) ->
  Zpos (digits2_pos mx) + ex <= Zpos (digits2_pos my) + ey ->
  let '(q, e', l) := SFdiv_core_binary prec emax (Zpos mx) ex (Zpos my) ey in
  at_most_one q e' l.
Proof.
  intros He Hv Hd. rewrite div_core_scaled by lia. cbn [Zdigits2].
  set (e' := Z.min _ _).
  assert (He' : e' <= -53).
  { subst e'. unfold fexp, SpecFloat.emin, prec, emax. lia. }
  assert (Hs : 0 <= ex - ey - e') by (subst e'; lia).
  set (m' := Zpos mx * 2 ^ (ex - ey - e')).
  pose proof (pow2_pos (ex - ey - e') Hs) as Hps.
  assert (Hm' : m' <= Zpos my * 2 ^ (- e')).
  { subst m'. replace (- e') with ((ey - ex) + (ex - ey - e')) by lia.
    rewrite Z.pow_add_r by lia. nia. }
  assert (Hm0 : 0 <= m') by (subst m'; nia).
  split; [split|split; [lia|]].
  - apply Z.div_pos; lia.
  - apply Z.div_le_upper_bound; [lia|]. exact Hm'.
  - intros Hq.
    pose proof (Z.div_mod m' (Zpos my) ltac:(lia)) as Hdm.
    pose proof (Z.mod_pos_bound m' (Zpos my) ltac:(lia)) as Hr.
    rewrite Hq in Hdm.
    assert (Hr0 : m' mod Zpos my = 0) by lia.
    rewrite Hr0. apply new_location_0.
Qed.

(** *** Division by the maximum *)

Lemma div_self s m e :
  div (S754_finite s m e) (S754_finite s m e) = one.
Proof.
  unfold div, SFdiv. rewrite div_core_scaled by lia.
  rewrite !Z.sub_diag.
  change (Z.min (fexp prec emax 0) 0) with (-53).
  change (0 - -53) with 53.
  rewrite (Z.mul_comm (Zpos m)), Z.div_mul, Z.mod_mul by lia.
  rewrite new_location_0.
  destruct s; vm_compute; reflexivity.
Qed.

Lemma div_le_one x m e :
  valid x = true ->
  valid (S754_finite false m e) = true ->
  leb x (S754_finite false m e) = true ->
  leb (div x (S754_finite false m e)) one = true.
Proof.
  intros Hx Hm Hle. destruct x as [sx|sx| |sx mx ex].
  - destruct sx; reflexivity.
  - destruct sx; [reflexivity | discriminate].
  - discriminate.
  - unfold div, SFdiv.
    destruct sx; cbn [xorb].
    + pose proof (div_core_nonneg mx ex m e) as Hq.
      destruct (SFdiv_core_binary prec emax (Zpos mx) ex (Zpos m) e) as [[q e'] l].
      apply binary_round_aux_negative. exact Hq.
    + destruct (leb_finite_value mx ex m e Hx Hm Hle) as (He & Hv & Hd).
      pose proof (div_core_at_most_one mx ex m e He Hv Hd) as Hq.
      destruct (SFdiv_core_binary prec emax (Zpos mx) ex (Zpos m) e) as [[q e'] l].
      apply binary_round_aux_le_one. exact Hq.
Qed.

End Division.

(** ** Indexing and slicing inside the bounds *)

Section Sequences.

Lemma sample_Some (a : list float) i x :
  sample a i = Some x -> 0 <= i < py_len a.
Proof.
  unfold sample, py_len. destruct (Z.ltb_spec i 0); [discriminate|].
  intros Hx%lookup_lt_Some. lia.
Qed.

Lemma sample_is_Some (a : list float) i :
  0 <= i < py_len a -> exists x, sample a i = Some x.
Proof.
  unfold sample, py_len. intros Hi.
  destruct (Z.ltb_spec i 0); [lia|].
  destruct (lookup_lt_is_Some_2 a (Z.to_nat i)) as [x Hx]; [lia|]. eauto.
Qed.

Lemma py_getitem_sample (a : list float) i x :
  sample a i = Some x -> py_getitem a i = Ok x.
Proof.
  intros Hs. pose proof (sample_Some _ _ _ Hs) as Hi.
  unfold sample in Hs. unfold py_getitem.
  destruct (Z.ltb_spec i 0); [lia|].
  destruct (Z.ltb_spec i 0); [lia|].
  destruct (Z.leb_spec (py_len a) i); [lia|]. simpl.
  rewrite Hs. reflexivity.
Qed.

Lemma py_getitem_head {A} (x : A) (l : list A) : py_getitem (x :: l) 0 = Ok x.
Proof. reflexivity. Qed.

Lemma elem_of_py_slice (a : list float) lo hi y :
  0 <= lo -> 0 <= hi ->
  y ∈ py_slice a lo hi <-> exists j, lo <= j < hi /\ sample a j = Some y.
Proof.
  intros Hlo Hhi. unfold py_slice.
  destruct (Z.ltb_spec hi 0); [lia|]. destruct (Z.ltb_spec lo 0); [lia|].
  rewrite elem_of_take. split.
  - intros [k [Hk Hlt]]. rewrite lookup_drop in Hk.
    pose proof (lookup_lt_Some _ _ _ Hk) as Hlen. unfold py_len in *.
    exists (Z.of_nat (Z.to_nat (Z.min lo (Z.of_nat (length a))) + k)%nat).
    split; [lia|]. unfold sample.
    destruct (Z.ltb_spec (Z.of_nat (Z.to_nat (Z.min lo (Z.of_nat (length a))) + k)%nat) 0); [lia|].
    rewrite Nat2Z.id. exact Hk.
  - intros [j [Hj Hs]]. pose proof (sample_Some _ _ _ Hs) as Hjn.
    unfold sample in Hs. destruct (Z.ltb_spec j 0); [lia|]. unfold py_len in *.
    exists (Z.to_nat (j - lo)). rewrite lookup_drop. split; [|lia].
    replace (Z.to_nat (Z.min lo (Z.of_nat (length a))) + Z.to_nat (j - lo))%nat
      with (Z.to_nat j) by lia.
    exact Hs.
Qed.

Lemma elem_of_window_samples (a : list float) i w y :
  y ∈ window_samples a i w
  <-> exists j, i - w <= j <= i + w /\ sample a j = Some y.
Proof.
  unfold window_samples. rewrite list_elem_of_omap.
  split; intros [j [H1 H2]]; exists j.
  - apply elem_of_seqZ in H1. split; [lia | exact H2].
  - split; [apply elem_of_seqZ; lia | exact H2].
Qed.

Lemma py_slice_window (a : list float) i w y :
  0 <= w -> w <= i ->
  y ∈ py_slice a (i - w) (i + w + 1) <-> y ∈ window_samples a i w.
Proof.
  intros Hw Hi. rewrite elem_of_py_slice by lia.
  rewrite elem_of_window_samples.
  split; intros [j [Hj Hs]]; exists j; (split; [lia | exact Hs]).
Qed.

Lemma is_maximum_of_ext x l1 l2 :
  (forall y, y ∈ l1 <-> y ∈ l2) -> is_maximum_of x l1 <-> is_maximum_of x l2.
Proof.
  intros H. unfold is_maximum_of.
  split; intros [[y [Hy He]] Hup]; (split; [exists y; split; [apply H, Hy | exact He]|]);
    intros z Hz; apply Hup, H, Hz.
Qed.

Lemma StronglySorted_seqZ m len : StronglySorted Z.lt (seqZ m len).
Proof.
  destruct (Z.le_gt_cases len 0) as [Hle|Hgt].
  { rewrite seqZ_nil by exact Hle. constructor. }
  rewrite <- (Z2Nat.id len) by lia.
  generalize (Z.to_nat len) as k. clear. intros k. revert m.
  induction k as [|k IH]; intros m.
  - constructor.
  - rewrite seqZ_cons by lia.
    replace (Z.pred (Z.of_nat (S k))) with (Z.of_nat k) by lia.
    constructor; [apply IH|].
    apply Forall_forall. intros j Hj. apply elem_of_seqZ in Hj. lia.
Qed.

Lemma StronglySorted_filter (P : Z -> Prop) `{forall i, Decision (P i)} l :
  StronglySorted Z.lt l -> StronglySorted Z.lt (filter P l).
Proof.
  induction 1 as [|a l Hs IH Ha].
  - constructor.
  - rewrite filter_cons. destruct (decide (P a)); [|exact IH].
    constructor; [exact IH|].
    apply Forall_forall. intros j Hj%list_elem_of_filter.
    rewrite Forall_forall in Ha. apply Ha, Hj.
Qed.

End Sequences.

(** ** The normaliser *)

Lemma eqb_positive_eq a b : eqb a b = true -> ltb zero a = true -> a = b.
Proof.
  unfold eqb, ltb, SFeqb, SFltb, SFcompare, zero.
  destruct a as [sa|sa| |sa ma ea], b as [sb|sb| |sb mb eb];
    try destruct sa; try destruct sb; try discriminate; try reflexivity.
  change (Pos.compare_cont Eq ma mb) with (Pos.compare ma mb).
  destruct (Z.compare_spec ea eb); try discriminate.
  destruct (Pos.compare_spec ma mb); try discriminate.
  intros _ _. subst. reflexivity.
Qed.

Lemma np_max_of_maximum intensity m :
  is_maximum_of m intensity -> ltb zero m = true -> np_max intensity = Ok m.
Proof.
  intros Hmax Hpos.
  destruct (np_max_nonempty intensity) as [m' Hm'].
  { destruct Hmax as [[y [Hy _]] _]. intros E. rewrite E in Hy. inversion Hy. }
  rewrite Hm'. f_equal. symmetry. apply eqb_positive_eq; [|exact Hpos].
  apply (np_max_is_max _ _ _ Hm'), Hmax.
Qed.

(** C7. A curve whose maximum is zero or negative is returned as it is. *)
Theorem normalize_intensity_nonpositive (intensity : list float) (m : float) :
  is_maximum_of m intensity ->
  leb m zero = true ->
  normalize_intensity intensity = Ok intensity.
Proof.
  intros Hmax Hle.
  destruct (np_max_nonempty intensity) as [m' Hm'].
  { destruct Hmax as [[y [Hy _]] _]. intros E. rewrite E in Hy. inversion Hy. }
  unfold normalize_intensity. rewrite Hm'. cbn [res_bind].
  assert (Hle' : leb m' zero = true).
  { eapply leb_trans; [|exact Hle].
    apply eqb_geb, (np_max_is_max _ _ _ Hm'), Hmax. }
  rewrite Hle'. reflexivity.
Qed.

(** C6, as the code has it. On a curve of binary64 numbers whose maximum
    [m] is strictly positive and finite, the result is the curve with each
    element divided by [m], and the maximum of the result is exactly 1.0. *)
Theorem normalize_intensity_unit_maximum (intensity : list float) (m : float) :
  Forall (fun x => valid x = true) intensity ->
  is_maximum_of m intensity ->
  ltb zero m = true ->
  is_finite m = true ->
  normalize_intensity intensity = Ok ((fun x => div x m) <$> intensity)
  /\ np_max ((fun x => div x m) <$> intensity) = Ok one.
Proof.
  intros Hvalid Hmax Hpos Hfin.
  pose proof (np_max_of_maximum _ _ Hmax Hpos) as Hm.
  pose proof (np_max_elem _ _ Hm) as Hin.
  split.
  - unfold normalize_intensity. rewrite Hm. cbn [res_bind].
    rewrite (ltb_not_leb _ _ Hpos). reflexivity.
  - destruct m as [s|s| |s mm me]; try discriminate.
    destruct s; [discriminate|].
    assert (Hvm : valid (S754_finite false mm me) = true).
    { rewrite Forall_forall in Hvalid. apply Hvalid, Hin. }
    set (q := fun x => div x (S754_finite false mm me)).
    assert (Hunit : is_maximum_of one (q <$> intensity)).
    { split.
      - exists one. split; [|reflexivity].
        apply list_elem_of_fmap. exists (S754_finite false mm me).
        split; [symmetry; apply div_self | exact Hin].
      - intros y Hy. apply list_elem_of_fmap in Hy as [x [-> Hx]].
        apply div_le_one; [|exact Hvm|].
        + rewrite Forall_forall in Hvalid. apply Hvalid, Hx.
        + apply Hmax, Hx. }
    apply np_max_of_maximum; [exact Hunit | reflexivity].
Qed.

(** C6 fails on an infinite maximum: [inf / inf] is a NaN. *)
Lemma normalize_intensity_infinite_maximum :
  ~ normalized_to_unit_maximum [inf].
Proof.
  intros H. destruct (H inf) as [_ Hone].
  - split.
    + exists inf. split; [apply list_elem_of_here | reflexivity].
    + intros y Hy. apply list_elem_of_singleton in Hy as ->. reflexivity.
  - reflexivity.
  - vm_compute in Hone. discriminate.
Qed.

(** ** The peak detector *)

Section DetectPeaks.

Variables energy intensity : list float.
Variable window : Z.
Variable threshold : float.

Let n := py_len intensity.

Lemma peak_test_is_peak i :
  0 <= window -> window <= i ->
  peak_test intensity window threshold i = true
  <-> is_peak intensity window threshold i.
Proof.
  intros Hw Hi. unfold peak_test, is_peak.
  destruct (sample intensity i) as [x|] eqn:Hs.
  2:{ split; [discriminate | intros [x [Hx _]]; discriminate]. }
  assert (Hin : x ∈ py_slice intensity (i - window) (i + window + 1)).
  { apply elem_of_py_slice; [lia|lia|]. exists i. split; [lia | exact Hs]. }
  destruct (np_max_nonempty (py_slice intensity (i - window) (i + window + 1)))
    as [m Hm].
  { intros E. rewrite E in Hin. inversion Hin. }
  rewrite Hm, andb_true_iff, (np_max_is_max _ _ x Hm).
  rewrite (is_maximum_of_ext x _ (window_samples intensity i window))
    by (intros y; apply py_slice_window; lia).
  split.
  - intros [H1 H2]. exists x. auto.
  - intros [x' [[= <-] [H1 H2]]]. auto.
Qed.

Lemma detect_loop_filter (indices : list Z) :
  length energy = length intensity ->
  0 <= window ->
  (forall i, i ∈ indices -> window <= i < n - window) ->
  forall peaks, exists found,
    detect_loop energy intensity window threshold indices peaks
      = Ok (peaks ++ found)
    /\ Forall2 (feature_at energy intensity)
         (filter (fun i => peak_test intensity window threshold i = true) indices)
         found.
Proof.
  intros Hlen Hw. induction indices as [|i rest IH]; intros Hidx peaks.
  - exists []. rewrite app_nil_r. split; [reflexivity | constructor].
  - assert (Hi : window <= i < n - window) by (apply Hidx, list_elem_of_here).
    assert (Hrest : forall j, j ∈ rest -> window <= j < n - window)
      by (intros j Hj; apply Hidx, list_elem_of_further, Hj).
    destruct (sample_is_Some intensity i) as [x Hx]; [subst n; lia|].
    destruct (sample_is_Some energy i) as [e He].
    { subst n. unfold py_len in *. rewrite Hlen. lia. }
    cbn [detect_loop]. rewrite (py_getitem_sample _ _ _ Hx). cbn [res_bind].
    pose proof (eq_refl (peak_test intensity window threshold i)) as Ht.
    unfold peak_test at 2 in Ht. rewrite Hx in Ht.
    destruct (np_max (py_slice intensity (i - window) (i + window + 1)))
      as [m|err] eqn:Hm; cbn [res_bind].
    + destruct (eqb x m && leb threshold x) eqn:Hc.
      * rewrite (py_getitem_sample _ _ _ He). cbn [res_bind].
        destruct (IH Hrest (peaks ++ [{| peak_energy := e; peak_intensity := x |}]))
          as [found [Hrun Hall]].
        exists ({| peak_energy := e; peak_intensity := x |} :: found).
        split.
        -- rewrite Hrun, <- app_assoc. reflexivity.
        -- rewrite filter_cons_True by exact Ht.
           constructor; [split; assumption | exact Hall].
      * destruct (IH Hrest peaks) as [found [Hrun Hall]].
        exists found. split; [exact Hrun|].
        rewrite filter_cons_False by (rewrite Ht; discriminate). exact Hall.
    + exfalso.
      destruct (np_max_nonempty (py_slice intensity (i - window) (i + window + 1)))
        as [m' Hm']; [|congruence].
      intros E.
      assert (Hin : x ∈ py_slice intensity (i - window) (i + window + 1)).
      { apply elem_of_py_slice; [lia|lia|]. exists i. split; [lia | exact Hx]. }
      rewrite E in Hin. inversion Hin.
Qed.

End DetectPeaks.

(** C1. With curves of equal length [n] and [window >= 0], the peaks
    returned are the features of the positions [i] in
    [window <= i <= n - 1 - window] at which [intensity[i]] equals the maximum
    of the [2 * window + 1] samples around it and is at least [threshold],
    one feature for each such position, in ascending order of position; no
    position nearer than [window] to either end is reported. *)
Theorem detect_peaks_local_maxima
    (energy intensity : list float) (window : Z) (threshold : float) :
  length energy = length intensity ->
  0 <= window ->
  exists (positions : list Z) (peaks : list SpectrumFeature),
    detect_peaks energy intensity window threshold = Ok peaks
    /\ Forall2 (feature_at energy intensity) positions peaks
    /\ StronglySorted Z.lt positions
    /\ (forall i, i ∈ positions <->
          window <= i <= py_len intensity - 1 - window
          /\ is_peak intensity window threshold i).
Proof.
  intros Hlen Hw.
  set (n := py_len intensity).
  set (positions :=
         filter (fun i => peak_test intensity window threshold i = true)
           (py_range window (n - window))).
  assert (Hmem : forall i, i ∈ positions <->
            window <= i <= n - 1 - window /\ is_peak intensity window threshold i).
  { intros i. unfold positions, py_range.
    rewrite list_elem_of_filter, elem_of_seqZ. split.
    - intros [Ht Hi]. split; [lia|]. apply peak_test_is_peak; [lia|lia|exact Ht].
    - intros [Hi Hp]. split; [|lia]. apply peak_test_is_peak; [lia|lia|exact Hp]. }
  assert (Hsorted : StronglySorted Z.lt positions).
  { apply StronglySorted_filter, StronglySorted_seqZ. }
  unfold detect_peaks. fold n. destruct (Z.eqb_spec n 0) as [Hn|Hn].
  - exists positions, []. split; [reflexivity|].
    assert (positions = []) as Hnil.
    { unfold positions, py_range. rewrite seqZ_nil by lia. reflexivity. }
    split; [rewrite Hnil; constructor|]. split; assumption.
  - destruct (detect_loop_filter energy intensity window threshold
                (py_range window (n - window)) Hlen Hw) with (peaks := @nil SpectrumFeature)
      as [found [Hrun Hall]].
    { intros i Hi. unfold py_range in Hi. apply elem_of_seqZ in Hi. fold n. lia. }
    exists positions, found. split; [exact Hrun|]. split; [exact Hall|].
    split; assumption.
Qed.

(** C8. A curve of length [n <= 2 * window] has no peak, whatever the
    threshold and the energies. *)
Theorem detect_peaks_short_curve
    (energy intensity : list float) (window : Z) (threshold : float) :
  py_len intensity <= 2 * window ->
  detect_peaks energy intensity window threshold = Ok [].
Proof.
  intros Hn. unfold detect_peaks.
  destruct (py_len intensity =? 0); [reflexivity|].
  unfold py_range. rewrite seqZ_nil by lia. reflexivity.
Qed.

Lemma filter_all_true (P : Z -> Prop) `{forall i, Decision (P i)} (l : list Z) :
  (forall i, i ∈ l -> P i) -> filter P l = l.
Proof.
  induction l as [|a l IH]; intros Hall; [reflexivity|].
  rewrite filter_cons_True by (apply Hall, list_elem_of_here).
  f_equal. apply IH. intros i Hi. apply Hall, list_elem_of_further, Hi.
Qed.

(** C9. On a flat curve whose samples all compare equal to [threshold], of
    length [n > 2 * window], every interior position
    [window, ..., n - 1 - window] is reported, each as its own peak. *)
Theorem detect_peaks_flat_curve
    (energy intensity : list float) (window : Z) (threshold : float) :
  length energy = length intensity ->
  0 <= window ->
  2 * window < py_len intensity ->
  (forall x, x ∈ intensity -> eqb x threshold = true) ->
  exists peaks,
    detect_peaks energy intensity window threshold = Ok peaks
    /\ Forall2 (feature_at energy intensity)
         (seqZ window (py_len intensity - 2 * window)) peaks.
Proof.
  intros Hlen Hw Hn Hflat.
  set (n := py_len intensity) in *.
  assert (Hsample : forall j y, sample intensity j = Some y -> eqb y threshold = true).
  { intros j y Hs. apply Hflat. unfold sample in Hs.
    destruct (j <? 0); [discriminate|]. eapply list_elem_of_lookup_2, Hs. }
  unfold detect_peaks. fold n. destruct (Z.eqb_spec n 0) as [Hz|_]; [lia|].
  destruct (detect_loop_filter energy intensity window threshold
              (py_range window (n - window)) Hlen Hw) with (peaks := @nil SpectrumFeature)
    as [found [Hrun Hall]].
  { intros i Hi. unfold py_range in Hi. apply elem_of_seqZ in Hi. fold n. lia. }
  exists found. split; [exact Hrun|].
  rewrite filter_all_true in Hall.
  - unfold py_range in Hall.
    replace (n - window - window) with (n - 2 * window) in Hall by lia.
    exact Hall.
  - intros i Hi. unfold py_range in Hi. apply elem_of_seqZ in Hi.
    apply peak_test_is_peak; [lia|lia|].
    destruct (sample_is_Some intensity i) as [x Hx]; [fold n; lia|].
    pose proof (Hsample _ _ Hx) as Hxt.
    exists x. split; [exact Hx|]. split; [split|].
    + exists x. split.
      * apply elem_of_window_samples. exists i. split; [lia | exact Hx].
      * apply leb_antisym; apply leb_refl; eapply leb_not_nan_l, eqb_leb, Hxt.
    + intros y Hy. apply elem_of_window_samples in Hy as [j [_ Hj]].
      eapply leb_trans; [apply eqb_leb, (Hsample _ _ Hj) | apply eqb_geb, Hxt].
    + apply eqb_geb, Hxt.
Qed.

(** ** Runs of programs *)

Section Runs.

Variable B : backend.

Lemma run_bind {A C} (p : prog A) (f : A -> prog C) (w : world B) :
  run B (bind p f) w =
  match run B p w with
  | (Ok a, w1, tr1) => then_trace tr1 (run B (f a) w1)
  | (Raise e, w1, tr1) => (Raise e, w1, tr1)
  end.
Proof.
  revert w. induction p as [a|e|R c k IH]; intros w; cbn [bind run].
  - unfold then_trace. destruct (run B (f a) w) as [[out w1] tr]. reflexivity.
  - reflexivity.
  - destruct (handle B c w) as [r w1]. rewrite IH.
    destruct (run B (k r) w1) as [[[a|e] w2] tr1].
    + unfold then_trace. destruct (run B (f a) w2) as [[out w3] tr2]. reflexivity.
    + reflexivity.
Qed.

Lemma run_attempt {A} (p : prog A) (w : world B) :
  run B (attempt p) w =
  let '(r, w1, tr) := run B p w in (Ok r, w1, tr).
Proof.
  revert w. induction p as [a|e|R c k IH]; intros w; cbn [attempt run];
    try reflexivity.
  destruct (handle B c w) as [r w1]. rewrite IH.
  destruct (run B (k r) w1) as [[out w2] tr]. reflexivity.
Qed.

Lemma run_perform {R} (c : call R) (w : world B) :
  run B (perform c) w =
  let (r, w1) := handle B c w in (r, w1, [Event c r]).
Proof.
  unfold perform. cbn [run]. destruct (handle B c w) as [[x|e] w1]; reflexivity.
Qed.

Variable cfg : Config.
Variable self : PineconeRAG.
Variable idx : string.
Hypothesis Hindex : index self = Some idx.

(** One turn of the dedup loop. *)
Lemma run_dedup_loop_cons ns text emb rest acc (w : world B) :
  run B (dedup_loop self ns ((text, emb) :: rest) acc) w =
  match on_index_query B idx ns emb 1 true w with
  | (Raise e, w1) =>
      then_trace [query_event idx ns emb (Raise e)]
        (run B (dedup_loop self ns rest acc) w1)
  | (Ok existing, w1) =>
      if is_duplicate existing then
        then_trace [query_event idx ns emb (Ok existing)]
          (run B (dedup_loop self ns rest acc) w1)
      else
        let (vid, w2) := on_uuid4 B w1 in
        then_trace [query_event idx ns emb (Ok existing); Event uuid4 (Ok vid)]
          (run B (dedup_loop self ns rest (acc ++ [new_vector vid emb text])) w2)
  end.
Proof.
  cbn [dedup_loop]. unfold self_index. rewrite Hindex. cbn [bind attempt perform run handle].
  destruct (on_index_query B idx ns emb 1 true w) as [[existing|e] w1];
    cbn [bind attempt run].
  - destruct (is_duplicate existing).
    + unfold then_trace, query_event.
      destruct (run B (dedup_loop self ns rest acc) w1) as [[out w2] tr]. reflexivity.
    + cbn [bind perform run handle]. destruct (on_uuid4 B w1) as [vid w2].
      cbn [bind run]. unfold then_trace, query_event.
      destruct (run B (dedup_loop self ns rest (acc ++ [new_vector vid emb text])) w2)
        as [[out w3] tr]. reflexivity.
  - unfold then_trace, query_event.
    destruct (run B (dedup_loop self ns rest acc) w1) as [[out w2] tr]. reflexivity.
Qed.

Lemma is_duplicate_true existing :
  is_duplicate existing = true <-> top_score_above existing.
Proof.
  unfold is_duplicate, top_score_above. destruct (matches existing) as [|top rest].
  - split; [discriminate | intros [t [r [H _]]]; discriminate].
  - split.
    + intros H. exists top, rest. auto.
    + intros [t [r [[= <- <-] H]]]. exact H.
Qed.

(** The loop never raises, and its trace is a dedup pass. *)
Lemma run_dedup_loop ns pairs acc (w : world B) :
  exists staged w1 tr,
    run B (dedup_loop self ns pairs acc) w = (Ok (acc ++ staged), w1, tr)
    /\ dedup_pass (dedup_step idx ns) pairs tr staged.
Proof.
  revert acc w. induction pairs as [|[text emb] rest IH]; intros acc w.
  - exists [], w, []. rewrite app_nil_r. split; [reflexivity | constructor].
  - rewrite run_dedup_loop_cons.
    destruct (on_index_query B idx ns emb 1 true w) as [[existing|e] w1].
    + destruct (is_duplicate existing) eqn:Hdup.
      * destruct (IH acc w1) as [staged [w2 [tr [Hrun Hpass]]]].
        exists staged, w2, ([query_event idx ns emb (Ok existing)] ++ tr).
        rewrite Hrun. split; [reflexivity|].
        apply (pass_cons _ text emb rest _ None); [|exact Hpass].
        left. constructor. apply is_duplicate_true, Hdup.
      * destruct (on_uuid4 B w1) as [vid w2].
        destruct (IH (acc ++ [new_vector vid emb text]) w2)
          as [staged [w3 [tr [Hrun Hpass]]]].
        exists (new_vector vid emb text :: staged), w3,
          ([query_event idx ns emb (Ok existing); Event uuid4 (Ok vid)] ++ tr).
        rewrite Hrun, <- app_assoc. split; [reflexivity|].
        apply (pass_cons _ text emb rest _ (Some (new_vector vid emb text)));
          [|exact Hpass].
        left. constructor. rewrite <- is_duplicate_true, Hdup. discriminate.
    + destruct (IH acc w1) as [staged [w2 [tr [Hrun Hpass]]]].
      exists staged, w2, ([query_event idx ns emb (Raise e)] ++ tr).
      rewrite Hrun. split; [reflexivity|].
      apply (pass_cons _ text emb rest _ None); [|exact Hpass].
      right. constructor.
Qed.

Lemma dedup_pass_ids ns pairs tr staged :
  dedup_pass (dedup_step idx ns) pairs tr staged ->
  v_id <$> staged = uuid_answers tr.
Proof.
  induction 1 as [|text emb pairs tr1 o tr staged Hstep _ IH]; [reflexivity|].
  unfold uuid_answers in *. rewrite fmap_app, omap_app, IH. f_equal.
  destruct Hstep as [Hstep|Hstep]; destruct Hstep; reflexivity.
Qed.

Lemma dedup_pass_no_upsert ns pairs tr staged :
  dedup_pass (dedup_step idx ns) pairs tr staged ->
  Forall (fun ev => is_index_upsert ev = false) tr.
Proof.
  induction 1 as [|text emb pairs tr1 o tr staged Hstep _ IH]; [constructor|].
  apply Forall_app. split; [|exact IH].
  destruct Hstep as [Hstep|Hstep]; destruct Hstep; repeat constructor.
Qed.

(** The loop over [pre ++ post] is the loop over [pre] followed by the loop
    over [post] from the list and the world it has reached. *)
Lemma run_dedup_loop_app ns pre post acc (w : world B) :
  run B (dedup_loop self ns (pre ++ post) acc) w =
  match run B (dedup_loop self ns pre acc) w with
  | (Ok acc1, w1, tr1) => then_trace tr1 (run B (dedup_loop self ns post acc1) w1)
  | (Raise e, w1, tr1) => (Raise e, w1, tr1)
  end.
Proof.
  revert acc w. induction pre as [|[text emb] pre IH]; intros acc w.
  - cbn. destruct (run B (dedup_loop self ns post acc) w) as [[out w1] tr].
    reflexivity.
  - rewrite <- app_comm_cons, !run_dedup_loop_cons.
    assert (Hthen : forall tr0 acc0 w0,
      then_trace tr0 (run B (dedup_loop self ns (pre ++ post) acc0) w0) =
      match then_trace tr0 (run B (dedup_loop self ns pre acc0) w0) with
      | (Ok acc1, w1, tr1) => then_trace tr1 (run B (dedup_loop self ns post acc1) w1)
      | (Raise e, w1, tr1) => (Raise e, w1, tr1)
      end).
    { intros tr0 acc0 w0. rewrite IH.
      destruct (run B (dedup_loop self ns pre acc0) w0) as [[[acc1|e] w1] tr1];
        [|reflexivity].
      cbn. destruct (run B (dedup_loop self ns post acc1) w1) as [[out w2] tr2].
      cbn. rewrite app_assoc. reflexivity. }
    destruct (on_index_query B idx ns emb 1 true w) as [[existing|e] w1].
    + destruct (is_duplicate existing); [apply Hthen|].
      destruct (on_uuid4 B w1) as [vid w2]. apply Hthen.
    + apply Hthen.
Qed.

Lemma run_insert_staged ns staged (w : world B) :
  run B (insert_staged self ns staged) w =
  match staged with
  | [] => (Ok tt, w, [])
  | _ => let (r, w1) := on_index_upsert B idx staged ns w in
         (r, w1, [Event (index_upsert idx staged ns) r])
  end.
Proof.
  destruct staged as [|v staged]; [reflexivity|].
  unfold insert_staged, self_index. rewrite Hindex. cbn [bind].
  rewrite run_perform. reflexivity.
Qed.

(** The whole of [upsert_docs] once the embeddings are there. *)
Lemma run_upsert_docs ns docs embeddings (w w1 : world B) :
  enabled self = true ->
  docs <> [] ->
  on_embeddings_create B (EMBEDDING_MODEL cfg) docs w = (Ok embeddings, w1) ->
  run B (upsert_docs cfg self docs ns) w =
  then_trace [Event (embeddings_create (EMBEDDING_MODEL cfg) docs) (Ok embeddings)]
    (match run B (dedup_loop self ns (zip docs embeddings) []) w1 with
     | (Ok staged, w2, tr) => then_trace tr (run B (insert_staged self ns staged) w2)
     | (Raise e, w2, tr) => (Raise e, w2, tr)
     end).
Proof.
  intros Hen Hdocs Hemb. unfold upsert_docs.
  rewrite Hen, bool_decide_eq_false_2 by exact Hdocs. cbn [negb orb].
  rewrite run_bind. unfold embed_text. rewrite run_perform. cbn [handle].
  rewrite Hemb. rewrite run_bind. reflexivity.
Qed.

(** In every run of [upsert_docs] the queries come before the insertion. *)
Lemma run_upsert_docs_queries_first ns docs (w : world B) :
  enabled self = true ->
  exists tr_q tr_ins,
    (run B (upsert_docs cfg self docs ns) w).2 = tr_q ++ tr_ins
    /\ Forall (fun ev => is_index_upsert ev = false) tr_q
    /\ Forall (fun ev => is_index_query ev = false) tr_ins.
Proof.
  intros Hen. destruct (decide (docs = [])) as [->|Hdocs].
  { exists [], []. unfold upsert_docs. rewrite Hen. cbn. repeat constructor. }
  destruct (on_embeddings_create B (EMBEDDING_MODEL cfg) docs w)
    as [[embeddings|e] w1] eqn:Hemb.
  - rewrite (run_upsert_docs ns docs embeddings w w1 Hen Hdocs Hemb).
    destruct (run_dedup_loop ns (zip docs embeddings) [] w1)
      as [staged [w2 [tr [Hrun Hpass]]]].
    rewrite Hrun, app_nil_l, run_insert_staged.
    exists (Event (embeddings_create (EMBEDDING_MODEL cfg) docs) (Ok embeddings) :: tr).
    destruct staged as [|v staged].
    + exists []. cbn. rewrite !app_nil_r.
      split; [reflexivity|]. split; [|constructor].
      constructor; [reflexivity | apply (dedup_pass_no_upsert _ _ _ _ Hpass)].
    + destruct (on_index_upsert B idx (v :: staged) ns w2) as [r w3].
      exists [Event (index_upsert idx (v :: staged) ns) r]. cbn.
      split; [reflexivity|]. split; [|repeat constructor].
      constructor; [reflexivity | apply (dedup_pass_no_upsert _ _ _ _ Hpass)].
  - exists [Event (embeddings_create (EMBEDDING_MODEL cfg) docs) (Raise e)], [].
    unfold upsert_docs. rewrite Hen, bool_decide_eq_false_2 by exact Hdocs.
    cbn [negb orb]. rewrite run_bind. unfold embed_text. rewrite run_perform.
    cbn [handle]. rewrite Hemb. cbn. repeat constructor.
Qed.

End Runs.

(** ** The vector store *)

(** C2, as the code has it. On an enabled store, once the batch is
    embedded, the run of [upsert_docs] is: the embedding call; then, for each
    (text, embedding) pair in order, one top-1 query of the namespace, after
    which the pair is skipped when the query raises or answers a top match
    with score strictly above 0.99, and is otherwise staged with a fresh id,
    the answer of a [uuid4] call made for it, and the metadata [{text}]; then
    one [index.upsert] call carrying all staged records, in order (no call
    when nothing is staged). The staged ids are the [uuid4] answers of the
    run, so they are as unique as those. *)
Theorem upsert_docs_dedup_pass (B : backend) (cfg : Config) (self : PineconeRAG)
    (idx ns : string) (docs : list string) (embeddings : list vector)
    (w w1 : world B) :
  enabled self = true ->
  index self = Some idx ->
  docs <> [] ->
  on_embeddings_create B (EMBEDDING_MODEL cfg) docs w = (Ok embeddings, w1) ->
  exists out w2 tr,
    run B (upsert_docs cfg self docs ns) w = (out, w2, tr)
    /\ upsert_run (dedup_step idx ns) cfg idx ns docs embeddings out tr.
Proof.
  intros Hen Hidx Hdocs Hemb.
  rewrite (run_upsert_docs B cfg self ns docs embeddings w w1 Hen Hdocs Hemb).
  destruct (run_dedup_loop B self idx Hidx ns (zip docs embeddings) [] w1)
    as [staged [w2 [tr [Hrun Hpass]]]].
  rewrite Hrun, app_nil_l, (run_insert_staged B self idx Hidx).
  destruct staged as [|v staged].
  - exists (Ok tt), w2,
      (Event (embeddings_create (EMBEDDING_MODEL cfg) docs) (Ok embeddings) :: tr).
    split; [cbn; rewrite app_nil_r; reflexivity|].
    exists tr, []. split; [exact Hpass|]. cbn. rewrite app_nil_r.
    split; [reflexivity|]. split; [reflexivity|].
    apply (dedup_pass_ids idx ns _ _ _ Hpass).
  - destruct (on_index_upsert B idx (v :: staged) ns w2) as [r w3].
    exists r, w3,
      (Event (embeddings_create (EMBEDDING_MODEL cfg) docs) (Ok embeddings)
       :: tr ++ [Event (index_upsert idx (v :: staged) ns) r]).
    split; [reflexivity|].
    exists tr, (v :: staged). split; [exact Hpass|]. split; [reflexivity|].
    split; [discriminate|]. apply (dedup_pass_ids idx ns _ _ _ Hpass).
Qed.

(** C4. A store constructed with an empty Pinecone API key is disabled, and
    stays so: whatever methods are then called on it, every [retrieve]
    returns the empty list, every [upsert_docs] returns without effect, no
    call raises, and no call reaches the embedding provider or the index. *)
Theorem disabled_store_is_inert (B : backend) (cfg : Config) (w : world B)
    (ms : list method) :
  PINECONE_API_KEY cfg = EmptyString ->
  exists self,
    run B (PineconeRAG_init cfg) w = (Ok self, w, [])
    /\ enabled self = false
    /\ run B (session cfg self ms) w = (Ok (empty_return <$> ms), w, []).
Proof.
  intros Hkey. exists {| enabled := false; index := None |}.
  split; [|split; [reflexivity|]].
  - unfold PineconeRAG_init. rewrite Hkey. reflexivity.
  - induction ms as [|m rest IH]; [reflexivity|].
    cbn [session]. rewrite run_bind.
    assert (Hm : run B (invoke cfg {| enabled := false; index := None |} m) w
                 = (Ok (empty_return m), w, [])).
    { destruct m; reflexivity. }
    rewrite Hm. rewrite run_bind, IH. reflexivity.
Qed.

Lemma metadata_get_text m :
  has_metadata m ->
  metadata_get m "text" (MStr EmptyString) = Ok (match_text m).
Proof.
  intros [metadata Hm]. unfold metadata_get, match_text. rewrite Hm.
  cbn [mbind option_bind]. destruct (metadata !! "text"%string); reflexivity.
Qed.

Lemma retrieve_loop_rows ms results :
  Forall has_metadata ms ->
  exists rows,
    retrieve_loop ms results = Ok (results ++ rows)
    /\ Forall2 (fun m row => row = (match_text m, sv_id m, sv_score m)) ms rows.
Proof.
  intros Hms. revert results.
  induction Hms as [|m rest Hm _ IH]; intros results.
  - exists []. rewrite app_nil_r. split; [reflexivity | constructor].
  - cbn [retrieve_loop]. rewrite (metadata_get_text m Hm). cbn [res_bind].
    destruct (IH (results ++ [(match_text m, sv_id m, sv_score m)]))
      as [rows [Heq Hall]].
    exists ((match_text m, sv_id m, sv_score m) :: rows). split.
    + rewrite Heq, <- app_assoc. reflexivity.
    + constructor; [reflexivity | exact Hall].
Qed.

(** The first match without a metadata object ends the loop. *)
Lemma retrieve_loop_metadata_less ms results :
  Exists (fun m => sv_metadata m = None) ms ->
  retrieve_loop ms results = Raise AttributeError.
Proof.
  revert results. induction ms as [|m rest IH]; intros results Hex.
  - inversion Hex.
  - cbn [retrieve_loop]. unfold metadata_get.
    destruct (sv_metadata m) as [metadata|] eqn:Hm; [|reflexivity].
    cbn [res_bind]. apply IH.
    inversion Hex as [? ? Hnone|? ? Hrest]; subst; [congruence | exact Hrest].
Qed.

(** C10. On an enabled store, when the query is embedded and the index
    answers [resp], every match of which carries a metadata dict, [retrieve]
    returns normally one [(text, id, score)] row for each match of [resp],
    in the order of [resp.matches]; the text is the value under ["text"] in
    the metadata of the match and the empty string when the dict has no such
    key. *)
Theorem retrieve_rows_follow_matches (B : backend) (cfg : Config)
    (self : PineconeRAG) (idx query ns : string) (k : Z)
    (q_emb : vector) (embs : list vector) (resp : QueryResponse)
    (w w1 w2 : world B) :
  enabled self = true ->
  index self = Some idx ->
  on_embeddings_create B (EMBEDDING_MODEL cfg) [query] w = (Ok (q_emb :: embs), w1) ->
  on_index_query B idx ns q_emb k true w1 = (Ok resp, w2) ->
  Forall has_metadata (matches resp) ->
  exists rows,
    run B (retrieve cfg self query k ns) w =
      (Ok rows, w2,
       [Event (embeddings_create (EMBEDDING_MODEL cfg) [query]) (Ok (q_emb :: embs));
        Event (index_query idx ns q_emb k true) (Ok resp)])
    /\ Forall2 (fun m row => row = (match_text m, sv_id m, sv_score m))
         (matches resp) rows.
Proof.
  intros Hen Hidx Hemb Hq Hmeta.
  destruct (retrieve_loop_rows (matches resp) [] Hmeta) as [rows [Hrows Hall]].
  exists rows. split; [|exact Hall].
  unfold retrieve, embed_text, self_index. rewrite Hen, Hidx.
  cbn [negb bind perform run handle]. rewrite Hemb.
  cbn [bind]. rewrite py_getitem_head.
  cbn [bind lift run handle]. rewrite Hq. cbn [bind run]. rewrite Hrows. reflexivity.
Qed.

(** C5. In a batch whose embeddings are there, take the document at any
    position, with the documents [pre] before it and [post] after it. When
    its dedup query raises, the trace has that one query for it and nothing
    else (no second query, no id drawn); the loop goes on with [post] from
    the list staged by [pre], unchanged; and the final insertion carries the
    records staged by [pre] followed by those staged by [post], each decided
    by its own query. *)
Theorem failed_query_skips_one_document (B : backend) (cfg : Config)
    (self : PineconeRAG) (idx ns : string) (docs : list string)
    (embeddings : list vector) (pre post : list (string * vector))
    (text : string) (emb : vector) (staged_pre : list Vector)
    (tr_pre : list event) (e : exn) (w w1 w2 w3 : world B) :
  enabled self = true ->
  index self = Some idx ->
  docs <> [] ->
  on_embeddings_create B (EMBEDDING_MODEL cfg) docs w = (Ok embeddings, w1) ->
  zip docs embeddings = pre ++ (text, emb) :: post ->
  run B (dedup_loop self ns pre []) w1 = (Ok staged_pre, w2, tr_pre) ->
  on_index_query B idx ns emb 1 true w2 = (Raise e, w3) ->
  exists staged_post tr_post w4 out w5,
    run B (dedup_loop self ns post staged_pre) w3
      = (Ok (staged_pre ++ staged_post), w4, tr_post)
    /\ dedup_pass (dedup_step idx ns) post tr_post staged_post
    /\ run B (upsert_docs cfg self docs ns) w =
         (out, w5,
          Event (embeddings_create (EMBEDDING_MODEL cfg) docs) (Ok embeddings)
          :: tr_pre ++ query_event idx ns emb (Raise e)
          :: tr_post ++ insert_events idx ns (staged_pre ++ staged_post) out)
    /\ (staged_pre ++ staged_post = [] -> out = Ok tt).
Proof.
  intros Hen Hidx Hdocs Hemb Hzip Hpre Hq.
  destruct (run_dedup_loop B self idx Hidx ns post staged_pre w3)
    as [staged_post [w4 [tr_post [Hpost Hpass]]]].
  assert (Hrun : run B (upsert_docs cfg self docs ns) w =
    then_trace
      [Event (embeddings_create (EMBEDDING_MODEL cfg) docs) (Ok embeddings)]
      (then_trace (tr_pre ++ [query_event idx ns emb (Raise e)] ++ tr_post)
         (run B (insert_staged self ns (staged_pre ++ staged_post)) w4))).
  { rewrite (run_upsert_docs B cfg self ns docs embeddings w w1 Hen Hdocs Hemb).
    rewrite Hzip, (run_dedup_loop_app B self idx Hidx), Hpre.
    rewrite (run_dedup_loop_cons B self idx Hidx), Hq, Hpost. reflexivity. }
  rewrite (run_insert_staged B self idx Hidx) in Hrun.
  exists staged_post, tr_post, w4.
  destruct (staged_pre ++ staged_post) as [|v staged] eqn:Hst.
  - exists (Ok tt), w4.
    split; [exact Hpost|]. split; [exact Hpass|]. split; [|reflexivity].
    rewrite Hrun. cbn. rewrite !app_nil_r. reflexivity.
  - destruct (on_index_upsert B idx (v :: staged) ns w4) as [r w5].
    exists r, w5.
    split; [exact Hpost|]. split; [exact Hpass|]. split; [|discriminate].
    rewrite Hrun. cbn. rewrite <- !app_assoc. reflexivity.
Qed.

(** ** The reference index *)

Section MemIndex.

Variable embed : string -> vector.
Variable similarity : vector -> vector -> float.
Variable cfg : Config.
Variable self : PineconeRAG.
Variable idx : string.
Hypothesis Hindex : index self = Some idx.

Let M := mem_backend embed similarity.

Lemma uid_inj n m : uid n = uid m -> n = m.
Proof.
  unfold uid. cbn [String.append]. intros [= H].
  exact (pretty_nat_inj _ _ H).
Qed.

Lemma mem_query_empty store ns q top_k :
  default [] (store !! ns) = [] ->
  mem_query similarity store ns q top_k = {| matches := [] |}.
Proof.
  intros H. unfold mem_query. rewrite H. cbn.
  rewrite take_nil. reflexivity.
Qed.

Lemma mem_query_no_fault (w : mem_world) ns q top_k :
  mem_faults w = [] ->
  on_index_query M idx ns q top_k true w
  = (Ok (mem_query similarity (mem_store w) ns q top_k), w).
Proof. intros H. cbn. rewrite H. reflexivity. Qed.

(** Without faults the dedup pass leaves the index as it found it, and
    every query of the pass is answered from that one state. *)
Lemma mem_dedup_loop_reads_initial ns pairs acc (w : mem_world) :
  mem_faults w = [] ->
  exists staged w1 tr,
    run M (dedup_loop self ns pairs acc) w = (Ok staged, w1, tr)
    /\ mem_store w1 = mem_store w
    /\ mem_faults w1 = []
    /\ Forall (answered_from similarity (mem_store w)) tr.
Proof.
  revert acc w. induction pairs as [|[text emb] rest IH]; intros acc w Hf.
  - exists acc, w, []. repeat split; [assumption | constructor].
  - rewrite (run_dedup_loop_cons M self idx Hindex), mem_query_no_fault by exact Hf.
    destruct (is_duplicate (mem_query similarity (mem_store w) ns emb 1)).
    + destruct (IH acc w Hf) as [staged [w1 [tr [Hrun [Hs [Hf1 Hall]]]]]].
      rewrite Hrun. eexists _, _, _. split; [reflexivity|].
      repeat split; [assumption..|].
      constructor; [reflexivity | exact Hall].
    + cbn [on_uuid4 M mem_backend].
      set (w' := {| mem_store := mem_store w; mem_next_id := S (mem_next_id w);
                    mem_indexes := mem_indexes w; mem_faults := mem_faults w |}).
      destruct (IH (acc ++ [new_vector (uid (mem_next_id w)) emb text]) w' Hf)
        as [staged [w1 [tr [Hrun [Hs [Hf1 Hall]]]]]].
      rewrite Hrun. eexists _, _, _. split; [reflexivity|].
      repeat split; [assumption..|].
      constructor; [reflexivity|]. constructor; [exact I | exact Hall].
Qed.

End MemIndex.

(** C3. With any backend, the trace of one [upsert_docs] call is a part
    without [index.upsert] followed by a part without [index.query]: every
    dedup query is made before the insertion of the batch. In the reference
    index, with no failures, every dedup query of the call is then answered
    from the state the index had when the call began; so a batch of two texts
    with the same embedding, upserted into an empty namespace, leaves both
    records in the namespace, under different ids, whatever the similarity
    of their embeddings is - also when it is above 0.99. *)
Theorem same_batch_duplicates_both_inserted
    (embed : string -> vector) (similarity : vector -> vector -> float)
    (cfg : Config) (self : PineconeRAG) (idx ns : string) (w : mem_world) :
  enabled self = true ->
  index self = Some idx ->
  mem_faults w = [] ->
  (forall (B : backend) docs (wB : world B),
      exists tr_q tr_ins,
        (run B (upsert_docs cfg self docs ns) wB).2 = tr_q ++ tr_ins
        /\ Forall (fun ev => is_index_upsert ev = false) tr_q
        /\ Forall (fun ev => is_index_query ev = false) tr_ins)
  /\ (forall docs,
      Forall (answered_from similarity (mem_store w))
        (run (mem_backend embed similarity) (upsert_docs cfg self docs ns) w).2)
  /\ (forall t1 t2,
        default [] (mem_store w !! ns) = [] ->
        embed t1 = embed t2 ->
        exists w1 tr,
          run (mem_backend embed similarity) (upsert_docs cfg self [t1; t2] ns) w
            = (Ok tt, w1, tr)
          /\ mem_store w1 !! ns =
               Some [ {| v_id := uid (mem_next_id w); v_values := embed t1;
                         v_metadata := {[ "text"%string := MStr t1 ]} |};
                      {| v_id := uid (S (mem_next_id w)); v_values := embed t2;
                         v_metadata := {[ "text"%string := MStr t2 ]} |} ]
          /\ uid (mem_next_id w) <> uid (S (mem_next_id w))).
Proof.
  intros Hen Hidx Hf. split; [|split].
  - intros B docs wB.
    apply (run_upsert_docs_queries_first B cfg self idx Hidx ns docs wB Hen).
  - intros docs. destruct docs as [|d docs].
    { unfold upsert_docs. rewrite Hen. cbn. constructor. }
    rewrite (run_upsert_docs (mem_backend embed similarity) cfg self ns (d :: docs) (embed <$> d :: docs) w w Hen)
      by (discriminate || reflexivity).
    destruct (mem_dedup_loop_reads_initial embed similarity self idx Hidx ns
                (zip (d :: docs) (embed <$> d :: docs)) [] w Hf)
      as [staged [w1 [tr [Hrun [Hs [Hf1 Hall]]]]]].
    rewrite Hrun, (run_insert_staged (mem_backend embed similarity) self idx Hidx).
    destruct staged as [|v staged]; cbn.
    + constructor; [exact I|]. rewrite app_nil_r. exact Hall.
    + constructor; [exact I|]. apply Forall_app. split; [exact Hall|].
      constructor; [exact I | constructor].
  - intros t1 t2 Hempty Hsame.
    assert (Hne : uid (mem_next_id w) <> uid (S (mem_next_id w))).
    { intros H%uid_inj. lia. }
    rewrite (run_upsert_docs (mem_backend embed similarity) cfg self ns [t1; t2] (embed <$> [t1; t2]) w w Hen)
      by (discriminate || reflexivity).
    cbn [fmap list_fmap zip_with].
    rewrite (run_dedup_loop_cons (mem_backend embed similarity) self idx Hidx).
    rewrite mem_query_no_fault, mem_query_empty by assumption.
    cbn [is_duplicate matches on_uuid4 mem_backend].
    rewrite (run_dedup_loop_cons (mem_backend embed similarity) self idx Hidx).
    rewrite mem_query_no_fault, mem_query_empty by assumption.
    cbn [is_duplicate matches on_uuid4 mem_backend mem_next_id].
    cbn [dedup_loop run then_trace app].
    rewrite (run_insert_staged (mem_backend embed similarity) self idx Hidx).
    cbn [on_index_upsert mem_backend then_trace app mem_store].
    eexists _, _. split; [reflexivity|]. split; [|exact Hne].
    cbn [mem_store]. unfold mem_upsert. rewrite lookup_insert_eq, Hempty.
    cbn [default fold_left put_record new_vector v_id].
    destruct (String.eqb_spec (uid (mem_next_id w)) (uid (S (mem_next_id w))));
      [contradiction | reflexivity].
Qed.

(** ** The functions on sample inputs *)

Lemma is_maximum_ofb_correct x l : is_maximum_ofb x l = true -> is_maximum_of x l.
Proof.
  unfold is_maximum_ofb, is_maximum_of. intros [He Ha]%andb_true_iff. split.
  - apply existsb_exists in He as [y [Hy Hxy]].
    exists y. split; [apply list_elem_of_In, Hy | exact Hxy].
  - intros y Hy. rewrite forallb_forall in Ha. apply Ha, list_elem_of_In, Hy.
Qed.

Example detect_peaks_single_peak :
  detect_peaks demo_energy demo_intensity 1 lit_0_2
  = Ok [{| peak_energy := of_Z 3; peak_intensity := of_Z 1 |}].
Proof. vm_compute. reflexivity. Qed.

Example detect_peaks_boundary_maximum :
  detect_peaks demo_energy [of_Z 1; half; of_Z 0; half; of_Z 1] 1 lit_0_2 = Ok [].
Proof. vm_compute. reflexivity. Qed.

Example detect_peaks_plateau :
  detect_peaks demo_energy demo_flat 1 lit_0_2
  = Ok [{| peak_energy := of_Z 2; peak_intensity := lit_0_2 |};
        {| peak_energy := of_Z 3; peak_intensity := lit_0_2 |};
        {| peak_energy := of_Z 4; peak_intensity := lit_0_2 |}].
Proof. vm_compute. reflexivity. Qed.

Example normalize_intensity_raw :
  normalize_intensity demo_raw
  = Ok [div (of_Z 1) (of_Z 4); of_Z 1; half].
Proof. vm_compute. reflexivity. Qed.

Example normalize_intensity_infinite :
  normalize_intensity [inf] = Ok [nan].
Proof. vm_compute. reflexivity. Qed.

Example normalize_intensity_empty :
  normalize_intensity [] = Raise ValueError.
Proof. reflexivity. Qed.

(** A dedup query that raises: the document is dropped and the call
    returns normally. *)
Example upsert_docs_failed_query_run :
  run demo_backend (upsert_docs demo_config demo_store ["a"%string] "default")
    (demo_world [true])
  = (Ok tt, demo_world [],
     [Event (embeddings_create "text-embedding-3-small" ["a"%string])
        (Ok [demo_embed "a"]);
      query_event "xray-rag" "default" (demo_embed "a")
        (Raise (BackendError "unavailable"))]).
Proof. vm_compute. reflexivity. Qed.

(** Across two calls the second copy is found and skipped. *)
Example upsert_docs_twice_skips_copy :
  let w1 := (run demo_backend
               (upsert_docs demo_config demo_store ["a"%string] "default")
               (demo_world [])).1.2 in
  let '(out, w2, tr) :=
    run demo_backend (upsert_docs demo_config demo_store ["a"%string] "default") w1 in
  out = Ok tt
  /\ mem_store w2 = mem_store w1
  /\ length <$> (mem_store w1 !! "default"%string) = Some 1%nat
  /\ event_raised <$> tr = [false; false].
Proof. vm_compute. repeat split. Qed.

(** C2 as stated fails where a dedup query raises: the pair is skipped
    although no top match above 0.99 was returned. *)
Lemma upsert_docs_failed_query_not_answered :
  ~ (exists out w2 tr,
        run demo_backend (upsert_docs demo_config demo_store ["a"%string] "default")
          (demo_world [true]) = (out, w2, tr)
        /\ upsert_run (answered_step "xray-rag" "default") demo_config
             "xray-rag" "default" ["a"%string] [demo_embed "a"] out tr).
Proof.
  intros (out & w2 & tr & Hrun & tr_d & staged & Hpass & Htr & _ & _).
  rewrite upsert_docs_failed_query_run in Hrun.
  injection Hrun as <- <- <-.
  apply (f_equal (fmap event_raised)) in Htr.
  inversion Hpass as [|text emb pairs tr1 o tr2 staged2 Hstep Hrest]; subst.
  inversion Hrest; subst.
  inversion Hstep; subst; cbn in Htr; discriminate.
Qed.

(** C10 as stated fails on a response with a match that was stored without
    metadata: [retrieve] raises [AttributeError] and returns no row, not
    even the row of the match before it. *)
Lemma retrieve_metadata_less_match_raises :
  enabled demo_store = true
  /\ run (answering_backend demo_bare_response)
       (retrieve demo_config demo_store "a" 3 "default") tt
     = (Raise AttributeError, tt,
        [Event (embeddings_create (EMBEDDING_MODEL demo_config) ["a"%string])
           (Ok [demo_embed "a"]);
         Event (index_query "xray-rag" "default" (demo_embed "a") 3 true)
           (Ok demo_bare_response)])
  /\ ~ (exists rows,
          (run (answering_backend demo_bare_response)
             (retrieve demo_config demo_store "a" 3 "default") tt).1.1 = Ok rows
          /\ Forall2 (fun m row => row = (match_text m, sv_id m, sv_score m))
               (matches demo_bare_response) rows).
Proof.
  assert (Hrun : run (answering_backend demo_bare_response)
                   (retrieve demo_config demo_store "a" 3 "default") tt
                 = (Raise AttributeError, tt,
                    [Event (embeddings_create (EMBEDDING_MODEL demo_config)
                              ["a"%string]) (Ok [demo_embed "a"]);
                     Event (index_query "xray-rag" "default" (demo_embed "a") 3 true)
                       (Ok demo_bare_response)])) by reflexivity.
  split; [reflexivity|]. split; [exact Hrun|].
  intros (rows & Hrows & _). rewrite Hrun in Hrows. discriminate.
Qed.

(** ** The theorems at sample inputs *)

Lemma detect_peaks_local_maxima_witness :
  length demo_energy = length demo_intensity
  /\ 0 <= 1
  /\ exists (positions : list Z) (peaks : list SpectrumFeature),
       detect_peaks demo_energy demo_intensity 1 lit_0_2 = Ok peaks
       /\ Forall2 (feature_at demo_energy demo_intensity) positions peaks
       /\ StronglySorted Z.lt positions
       /\ (forall i, i ∈ positions <->
             1 <= i <= py_len demo_intensity - 1 - 1
             /\ is_peak demo_intensity 1 lit_0_2 i).
Proof.
  split; [reflexivity|]. split; [lia|].
  apply (detect_peaks_local_maxima demo_energy demo_intensity 1 lit_0_2);
    [reflexivity | lia].
Defined.

Lemma detect_peaks_short_curve_witness :
  py_len demo_intensity <= 2 * 3
  /\ detect_peaks demo_energy demo_intensity 3 lit_0_2 = Ok [].
Proof.
  split; [change (5 <= 6); lia|].
  apply (detect_peaks_short_curve demo_energy demo_intensity 3 lit_0_2).
  change (5 <= 6). lia.
Defined.

Lemma demo_flat_at_threshold x : x ∈ demo_flat -> eqb x lit_0_2 = true.
Proof. intros [-> _]%elem_of_replicate. reflexivity. Qed.

Lemma detect_peaks_flat_curve_witness :
  length demo_energy = length demo_flat
  /\ 0 <= 1
  /\ 2 * 1 < py_len demo_flat
  /\ (forall x, x ∈ demo_flat -> eqb x lit_0_2 = true)
  /\ exists peaks,
       detect_peaks demo_energy demo_flat 1 lit_0_2 = Ok peaks
       /\ Forall2 (feature_at demo_energy demo_flat)
            (seqZ 1 (py_len demo_flat - 2 * 1)) peaks.
Proof.
  split; [reflexivity|]. split; [lia|]. split; [change (2 < 5); lia|].
  split; [exact demo_flat_at_threshold|].
  apply (detect_peaks_flat_curve demo_energy demo_flat 1 lit_0_2);
    [reflexivity | lia | change (2 < 5); lia | exact demo_flat_at_threshold].
Defined.

Lemma normalize_intensity_nonpositive_witness :
  is_maximum_of (of_Z (-1)) demo_negative
  /\ leb (of_Z (-1)) zero = true
  /\ normalize_intensity demo_negative = Ok demo_negative.
Proof.
  split; [apply is_maximum_ofb_correct; reflexivity|]. split; [reflexivity|].
  apply (normalize_intensity_nonpositive demo_negative (of_Z (-1)));
    [apply is_maximum_ofb_correct; reflexivity | reflexivity].
Defined.

Lemma normalize_intensity_unit_maximum_witness :
  Forall (fun x => valid x = true) demo_raw
  /\ is_maximum_of (of_Z 4) demo_raw
  /\ ltb zero (of_Z 4) = true
  /\ is_finite (of_Z 4) = true
  /\ normalize_intensity demo_raw = Ok ((fun x => div x (of_Z 4)) <$> demo_raw)
  /\ np_max ((fun x => div x (of_Z 4)) <$> demo_raw) = Ok one.
Proof.
  split; [repeat constructor|].
  split; [apply is_maximum_ofb_correct; reflexivity|].
  split; [reflexivity|]. split; [reflexivity|].
  apply (normalize_intensity_unit_maximum demo_raw (of_Z 4));
    [repeat constructor | apply is_maximum_ofb_correct; reflexivity
     | reflexivity | reflexivity].
Defined.

Lemma upsert_docs_dedup_pass_witness :
  enabled demo_store = true
  /\ index demo_store = Some "xray-rag"%string
  /\ ["a"; "b"; "abc"]%string <> []
  /\ on_embeddings_create demo_backend (EMBEDDING_MODEL demo_config)
       ["a"; "b"; "abc"]%string demo_world_stocked
     = (Ok (demo_embed <$> ["a"; "b"; "abc"]%string), demo_world_stocked)
  /\ exists out w2 tr,
       run demo_backend
         (upsert_docs demo_config demo_store ["a"; "b"; "abc"]%string "default")
         demo_world_stocked = (out, w2, tr)
       /\ upsert_run (dedup_step "xray-rag" "default") demo_config
            "xray-rag" "default" ["a"; "b"; "abc"]%string
            (demo_embed <$> ["a"; "b"; "abc"]%string) out tr.
Proof.
  split; [reflexivity|]. split; [reflexivity|]. split; [discriminate|].
  split; [reflexivity|].
  apply (upsert_docs_dedup_pass demo_backend demo_config demo_store
           "xray-rag" "default" ["a"; "b"; "abc"]%string
           (demo_embed <$> ["a"; "b"; "abc"]%string)
           demo_world_stocked demo_world_stocked);
    [reflexivity | reflexivity | discriminate | reflexivity].
Defined.

Lemma disabled_store_is_inert_witness :
  PINECONE_API_KEY demo_config_no_key = EmptyString
  /\ exists self,
       run demo_backend (PineconeRAG_init demo_config_no_key) demo_world_stocked
         = (Ok self, demo_world_stocked, [])
       /\ enabled self = false
       /\ run demo_backend
            (session demo_config_no_key self
               [call_retrieve "anything" 3 "default";
                call_upsert_docs ["a"%string] "default";
                call_retrieve "a" 1 "default"])
            demo_world_stocked
          = (Ok [from_retrieve []; from_upsert_docs; from_retrieve []],
             demo_world_stocked, []).
Proof.
  split; [reflexivity|].
  apply (disabled_store_is_inert demo_backend demo_config_no_key demo_world_stocked
           [call_retrieve "anything" 3 "default";
            call_upsert_docs ["a"%string] "default";
            call_retrieve "a" 1 "default"]).
  reflexivity.
Defined.

Lemma retrieve_rows_follow_matches_witness :
  enabled demo_store = true
  /\ index demo_store = Some "xray-rag"%string
  /\ on_embeddings_create demo_backend (EMBEDDING_MODEL demo_config)
       ["a"%string] demo_world_stocked
     = (Ok [demo_embed "a"], demo_world_stocked)
  /\ on_index_query demo_backend "xray-rag" "default" (demo_embed "a") 3 true
       demo_world_stocked
     = (Ok (mem_query cosine (mem_store demo_world_stocked) "default"
              (demo_embed "a") 3), demo_world_stocked)
  /\ Forall has_metadata
       (matches (mem_query cosine (mem_store demo_world_stocked) "default"
                   (demo_embed "a") 3))
  /\ exists rows,
       run demo_backend (retrieve demo_config demo_store "a" 3 "default")
         demo_world_stocked
       = (Ok rows, demo_world_stocked,
          [Event (embeddings_create (EMBEDDING_MODEL demo_config) ["a"%string])
             (Ok [demo_embed "a"]);
           Event (index_query "xray-rag" "default" (demo_embed "a") 3 true)
             (Ok (mem_query cosine (mem_store demo_world_stocked) "default"
                    (demo_embed "a") 3))])
       /\ Forall2 (fun m row => row = (match_text m, sv_id m, sv_score m))
            (matches (mem_query cosine (mem_store demo_world_stocked) "default"
                        (demo_embed "a") 3)) rows.
Proof.
  split; [reflexivity|]. split; [reflexivity|]. split; [reflexivity|].
  split; [reflexivity|].
  split; [vm_compute; repeat constructor; eexists; reflexivity|].
  apply (retrieve_rows_follow_matches demo_backend demo_config demo_store
           "xray-rag" "a" "default" 3 (demo_embed "a") []
           (mem_query cosine (mem_store demo_world_stocked) "default"
              (demo_embed "a") 3)
           demo_world_stocked demo_world_stocked demo_world_stocked);
    [reflexivity | reflexivity | reflexivity | reflexivity
     | vm_compute; repeat constructor; eexists; reflexivity].
Defined.

(** The rows of that call: the record whose metadata has no text yields
    the empty text. *)
Example retrieve_rows_sample :
  (run demo_backend (retrieve demo_config demo_store "a" 3 "default")
     demo_world_stocked).1.1
  = Ok [(MStr "a", "doc-1"%string, cosine (demo_embed "a") (demo_embed "a"));
        (MStr EmptyString, "doc-2"%string, cosine (demo_embed "a") (demo_embed "abc"))].
Proof. vm_compute. reflexivity. Qed.

Lemma failed_query_skips_one_document_witness :
  enabled demo_store = true
  /\ index demo_store = Some "xray-rag"%string
  /\ ["a"; "bb"; "abc"]%string <> []
  /\ on_embeddings_create demo_backend (EMBEDDING_MODEL demo_config)
       ["a"; "bb"; "abc"]%string (demo_world [false; true])
     = (Ok (demo_embed <$> ["a"; "bb"; "abc"]%string), demo_world [false; true])
  /\ zip ["a"; "bb"; "abc"]%string (demo_embed <$> ["a"; "bb"; "abc"]%string)
     = [("a"%string, demo_embed "a")] ++ ("bb"%string, demo_embed "bb")
       :: [("abc"%string, demo_embed "abc")]
  /\ run demo_backend
       (dedup_loop demo_store "default" [("a"%string, demo_embed "a")] [])
       (demo_world [false; true])
     = (Ok [new_vector "id-0" (demo_embed "a") "a"], demo_world_at 1 [true],
        [query_event "xray-rag" "default" (demo_embed "a") (Ok {| matches := [] |});
         Event uuid4 (Ok "id-0"%string)])
  /\ on_index_query demo_backend "xray-rag" "default" (demo_embed "bb") 1 true
       (demo_world_at 1 [true])
     = (Raise (BackendError "unavailable"), demo_world_at 1 [])
  /\ exists staged_post tr_post w4 out w5,
       run demo_backend
         (dedup_loop demo_store "default" [("abc"%string, demo_embed "abc")]
            [new_vector "id-0" (demo_embed "a") "a"])
         (demo_world_at 1 [])
       = (Ok ([new_vector "id-0" (demo_embed "a") "a"] ++ staged_post), w4, tr_post)
       /\ dedup_pass (dedup_step "xray-rag" "default")
            [("abc"%string, demo_embed "abc")] tr_post staged_post
       /\ run demo_backend
            (upsert_docs demo_config demo_store ["a"; "bb"; "abc"]%string "default")
            (demo_world [false; true])
          = (out, w5,
             Event (embeddings_create (EMBEDDING_MODEL demo_config)
                      ["a"; "bb"; "abc"]%string)
               (Ok (demo_embed <$> ["a"; "bb"; "abc"]%string))
             :: [query_event "xray-rag" "default" (demo_embed "a")
                   (Ok {| matches := [] |});
                 Event uuid4 (Ok "id-0"%string)]
             ++ query_event "xray-rag" "default" (demo_embed "bb")
                  (Raise (BackendError "unavailable"))
             :: tr_post
             ++ insert_events "xray-rag" "default"
                  ([new_vector "id-0" (demo_embed "a") "a"] ++ staged_post) out)
       /\ ([new_vector "id-0" (demo_embed "a") "a"] ++ staged_post = [] -> out = Ok tt).
Proof.
  split; [reflexivity|]. split; [reflexivity|]. split; [discriminate|].
  split; [reflexivity|]. split; [reflexivity|]. split; [reflexivity|].
  split; [reflexivity|].
  apply (failed_query_skips_one_document demo_backend demo_config demo_store
           "xray-rag" "default" ["a"; "bb"; "abc"]%string
           (demo_embed <$> ["a"; "bb"; "abc"]%string)
           [("a"%string, demo_embed "a")] [("abc"%string, demo_embed "abc")]
           "bb" (demo_embed "bb") [new_vector "id-0" (demo_embed "a") "a"]
           [query_event "xray-rag" "default" (demo_embed "a") (Ok {| matches := [] |});
            Event uuid4 (Ok "id-0"%string)]
           (BackendError "unavailable")
           (demo_world [false; true]) (demo_world [false; true])
           (demo_world_at 1 [true]) (demo_world_at 1 []));
    [reflexivity | reflexivity | discriminate | reflexivity | reflexivity
     | reflexivity | reflexivity].
Defined.

(** The batch of that run: the first and the third document are inserted,
    the second, whose query failed, is not. *)
Example failed_query_batch_sample :
  let '(out, w, tr) :=
    run demo_backend
      (upsert_docs demo_config demo_store ["a"; "bb"; "abc"]%string "default")
      (demo_world [false; true]) in
  out = Ok tt
  /\ mem_store w !! "default"%string
     = Some [new_vector "id-0" (demo_embed "a") "a";
             new_vector "id-1" (demo_embed "abc") "abc"]
  /\ event_raised <$> tr = [false; false; false; true; false; false; false].
Proof. vm_compute. repeat split. Qed.

Lemma same_batch_duplicates_both_inserted_witness :
  enabled demo_store = true
  /\ index demo_store = Some "xray-rag"%string
  /\ mem_faults (demo_world []) = []
  /\ default [] (mem_store (demo_world []) !! "default"%string) = []
  /\ demo_embed "a" = demo_embed "b"
  /\ ltb lit_0_99 (cosine (demo_embed "a") (demo_embed "b")) = true
  /\ exists w1 tr,
       run demo_backend
         (upsert_docs demo_config demo_store ["a"; "b"]%string "default")
         (demo_world []) = (Ok tt, w1, tr)
       /\ mem_store w1 !! "default"%string =
            Some [ {| v_id := uid 0; v_values := demo_embed "a";
                      v_metadata := {[ "text"%string := MStr "a" ]} |};
                   {| v_id := uid 1; v_values := demo_embed "b";
                      v_metadata := {[ "text"%string := MStr "b" ]} |} ]
       /\ uid 0 <> uid 1.
Proof.
  split; [reflexivity|]. split; [reflexivity|]. split; [reflexivity|].
  split; [reflexivity|]. split; [reflexivity|]. split; [reflexivity|].
  apply (proj2 (proj2 (same_batch_duplicates_both_inserted demo_embed cosine
                         demo_config demo_store "xray-rag" "default" (demo_world [])
                         eq_refl eq_refl eq_refl)) "a"%string "b"%string);
    reflexivity.
Defined.

(** A top score equal to the threshold is not a duplicate; the next
    binary64 value above it is. *)
Example is_duplicate_at_threshold :
  is_duplicate
    {| matches := [{| sv_id := "doc-1"; sv_score := lit_0_99; sv_metadata := Some ∅ |}] |}
  = false
  /\ is_duplicate
       {| matches := [{| sv_id := "doc-1";
                         sv_score := S754_finite false 8917127262193583 (-53);
                         sv_metadata := Some ∅ |}] |}
     = true.
Proof. split; reflexivity. Qed.

(** * Further properties *)

(** ** The normaliser, beyond the claims *)

(** X1. The normaliser raises on the empty curve only, and then a
    [ValueError]; on any other curve it returns a curve of the same
    length. *)
Theorem normalize_intensity_length (intensity : list float) :
  match normalize_intensity intensity with
  | Ok r => intensity <> [] /\ length r = length intensity
  | Raise e => intensity = [] /\ e = ValueError
  end.
Proof.
  destruct intensity as [|x l]; [split; reflexivity|].
  unfold normalize_intensity. cbn [np_max res_bind].
  destruct (leb (fold_left np_maximum l x) zero).
  - split; [discriminate | reflexivity].
  - split; [discriminate | apply length_fmap].
Qed.

Lemma fold_maximum_nan_elem l x y :
  y ∈ x :: l -> is_nan y = true -> is_nan (fold_left np_maximum l x) = true.
Proof.
  revert x. induction l as [|b l IH]; intros x Hy Hnan.
  - apply list_elem_of_singleton in Hy as ->. exact Hnan.
  - cbn [fold_left]. apply elem_of_cons in Hy as [->|Hy].
    + apply fold_maximum_nan. rewrite np_maximum_nan_l; assumption.
    + apply elem_of_cons in Hy as [->|Hy].
      * apply fold_maximum_nan, np_maximum_nan_r, Hnan.
      * apply IH; [apply list_elem_of_further, Hy | exact Hnan].
Qed.

Lemma div_nan_r x y : is_nan y = true -> is_nan (div x y) = true.
Proof. destruct y; try discriminate. intros _. destruct x; reflexivity. Qed.

(** X2. One NaN sample poisons the whole curve: the normaliser returns
    normally, and every sample of its result is a NaN. *)
Theorem normalize_intensity_nan (intensity : list float) (x : float) :
  x ∈ intensity ->
  is_nan x = true ->
  exists r,
    normalize_intensity intensity = Ok r
    /\ length r = length intensity
    /\ Forall (fun y => is_nan y = true) r.
Proof.
  intros Hx Hnan. destruct intensity as [|a l]; [inversion Hx|].
  pose proof (fold_maximum_nan_elem l a x Hx Hnan) as Hmax.
  unfold normalize_intensity. cbn [np_max res_bind].
  destruct (leb (fold_left np_maximum l a) zero) eqn:Hle.
  { apply leb_not_nan_l in Hle. congruence. }
  eexists. split; [reflexivity|]. split; [apply length_fmap|].
  apply Forall_fmap, Forall_forall. intros y _. apply div_nan_r, Hmax.
Qed.

Lemma normalize_intensity_nan_witness :
  nan ∈ [of_Z 1; nan; of_Z 3]
  /\ is_nan nan = true
  /\ exists r,
       normalize_intensity [of_Z 1; nan; of_Z 3] = Ok r
       /\ length r = length [of_Z 1; nan; of_Z 3]
       /\ Forall (fun y => is_nan y = true) r.
Proof.
  split; [apply list_elem_of_further, list_elem_of_here|]. split; [reflexivity|].
  apply (normalize_intensity_nan [of_Z 1; nan; of_Z 3] nan);
    [apply list_elem_of_further, list_elem_of_here | reflexivity].
Defined.

(** The result of rounding carries the sign it was given. *)
Lemma binary_round_aux_sign s m e l :
  0 <= m ->
  is_nan (binary_round_aux prec emax s m e l) = false
  /\ signbit (binary_round_aux prec emax s m e l) = s.
Proof.
  intros Hm. unfold binary_round_aux.
  pose proof (shr_fexp_nonneg m e l Hm) as H1.
  destruct (shr_fexp prec emax m e l) as [mrs1 e1]. cbn [fst] in H1.
  pose proof (shr_fexp_nonneg _ e1 loc_Exact
                (round_nonneg _ (loc_of_shr_record mrs1) H1)) as H2.
  destruct (shr_fexp prec emax (round_nearest_even (shr_m mrs1) (loc_of_shr_record mrs1))
              e1 loc_Exact) as [mrs2 e2].
  cbn [fst] in H2.
  destruct (shr_m mrs2) as [|m2|m2]; [split; reflexivity| |lia].
  destruct (e2 <=? emax - prec); split; reflexivity.
Qed.

Lemma div_sign x s m e :
  is_nan x = false ->
  is_nan (div x (S754_finite s m e)) = false
  /\ signbit (div x (S754_finite s m e)) = xorb (signbit x) s.
Proof.
  intros Hx. destruct x as [sx|sx| |sx mx ex]; try discriminate;
    try (split; reflexivity).
  unfold div, SFdiv. cbn [signbit].
  pose proof (div_core_nonneg mx ex m e) as Hq.
  destruct (SFdiv_core_binary prec emax (Zpos mx) ex (Zpos m) e) as [[q e'] l].
  apply binary_round_aux_sign. exact Hq.
Qed.

(** X3. Dividing by a strictly positive finite maximum keeps the sign of
    every sample and makes no NaN: sample by sample, the result has the
    sign bit of the input. *)
Theorem normalize_intensity_keeps_sign (intensity : list float) (m : float) :
  is_maximum_of m intensity ->
  ltb zero m = true ->
  is_finite m = true ->
  exists r,
    normalize_intensity intensity = Ok r
    /\ Forall2 (fun x y => is_nan y = false /\ signbit y = signbit x) intensity r.
Proof.
  intros Hmax Hpos Hfin.
  pose proof (np_max_of_maximum _ _ Hmax Hpos) as Hm.
  exists ((fun x => div x m) <$> intensity). split.
  - unfold normalize_intensity. rewrite Hm. cbn [res_bind].
    rewrite (ltb_not_leb _ _ Hpos). reflexivity.
  - destruct m as [s|s| |s mm me]; try discriminate.
    destruct s; [discriminate|].
    apply Forall2_fmap_r, Forall_Forall2_diag, Forall_forall. intros x Hx.
    destruct (div_sign x false mm me) as [H1 H2].
    { eapply leb_not_nan_l, Hmax, Hx. }
    split; [exact H1|]. rewrite H2. apply xorb_false_r.
Qed.

Lemma normalize_intensity_keeps_sign_witness :
  is_maximum_of (of_Z 4) (of_Z <$> [-2; 4; 0; 1])
  /\ ltb zero (of_Z 4) = true
  /\ is_finite (of_Z 4) = true
  /\ exists r,
       normalize_intensity (of_Z <$> [-2; 4; 0; 1]) = Ok r
       /\ Forall2 (fun x y => is_nan y = false /\ signbit y = signbit x)
            (of_Z <$> [-2; 4; 0; 1]) r.
Proof.
  split; [apply is_maximum_ofb_correct; reflexivity|].
  split; [reflexivity|]. split; [reflexivity|].
  apply (normalize_intensity_keeps_sign (of_Z <$> [-2; 4; 0; 1]) (of_Z 4));
    [apply is_maximum_ofb_correct; reflexivity | reflexivity | reflexivity].
Defined.

(** ** The peak detector, beyond the claims *)

Lemma py_getitem_elem {A} (a : list A) i x : py_getitem a i = Ok x -> x ∈ a.
Proof.
  unfold py_getitem.
  destruct (((if i <? 0 then i + py_len a else i) <? 0)
            || (py_len a <=? (if i <? 0 then i + py_len a else i))); [discriminate|].
  destruct (a !! Z.to_nat (if i <? 0 then i + py_len a else i)) as [y|] eqn:E;
    [|discriminate].
  intros [= <-]. eapply list_elem_of_lookup_2, E.
Qed.

Lemma py_getitem_raises {A} (a : list A) i e :
  py_getitem a i = Raise e -> e = IndexError.
Proof.
  unfold py_getitem.
  destruct (((if i <? 0 then i + py_len a else i) <? 0)
            || (py_len a <=? (if i <? 0 then i + py_len a else i))); [congruence|].
  destruct (a !! Z.to_nat (if i <? 0 then i + py_len a else i)); congruence.
Qed.

Lemma py_getitem_beyond {A} (a : list A) i :
  0 <= i -> py_len a <= i -> py_getitem a i = Raise IndexError.
Proof.
  intros H0 Hi. unfold py_getitem.
  destruct (Z.ltb_spec i 0); [lia|].
  destruct (Z.ltb_spec i 0); [lia|].
  destruct (Z.leb_spec (py_len a) i); [reflexivity | lia].
Qed.

(** What the loop appends: features of samples that passed the test. *)
Lemma detect_loop_appends energy intensity window threshold indices peaks found
    (P : SpectrumFeature -> Prop) :
  (forall e x, e ∈ energy -> x ∈ intensity -> leb threshold x = true ->
               P {| peak_energy := e; peak_intensity := x |}) ->
  Forall P peaks ->
  detect_loop energy intensity window threshold indices peaks = Ok found ->
  Forall P found.
Proof.
  intros HP. revert peaks. induction indices as [|i rest IH]; intros peaks Hpeaks.
  - cbn. intros [= <-]. exact Hpeaks.
  - cbn [detect_loop].
    destruct (py_getitem intensity i) as [x|err] eqn:Hx; [|discriminate].
    cbn [res_bind].
    destruct (np_max (py_slice intensity (i - window) (i + window + 1)))
      as [m|err]; [|discriminate].
    cbn [res_bind]. destruct (eqb x m && leb threshold x) eqn:Ht.
    + destruct (py_getitem energy i) as [e|err] eqn:He; [|discriminate].
      cbn [res_bind]. apply IH. apply Forall_app. split; [exact Hpeaks|].
      constructor; [|constructor].
      apply andb_true_iff in Ht as [_ Ht].
      apply HP; [eapply py_getitem_elem, He | eapply py_getitem_elem, Hx | exact Ht].
    + apply IH, Hpeaks.
Qed.

(** X4. Whatever the arguments, when the detector returns, every peak it
    reports carries an energy of the energy curve and an intensity of the
    intensity curve, and that intensity is at least the threshold (so it is
    not a NaN). *)
Theorem detect_peaks_above_threshold
    (energy intensity : list float) (window : Z) (threshold : float) :
  match detect_peaks energy intensity window threshold with
  | Ok peaks =>
      Forall (fun p => peak_energy p ∈ energy
                       /\ peak_intensity p ∈ intensity
                       /\ leb threshold (peak_intensity p) = true) peaks
  | Raise _ => True
  end.
Proof.
  destruct (detect_peaks energy intensity window threshold) as [peaks|e] eqn:H;
    [|exact I].
  unfold detect_peaks in H. destruct (py_len intensity =? 0).
  - injection H as <-. constructor.
  - eapply detect_loop_appends; [|constructor|exact H].
    intros e x He Hx Ht. cbn. auto.
Qed.

Lemma detect_loop_raises energy intensity window threshold indices peaks i :
  i ∈ indices ->
  py_getitem intensity i = Raise IndexError ->
  exists e, detect_loop energy intensity window threshold indices peaks = Raise e.
Proof.
  intros Hi Hraise. revert peaks.
  induction indices as [|j rest IH]; intros peaks; [inversion Hi|].
  cbn [detect_loop].
  destruct (decide (j = i)) as [->|Hne].
  { rewrite Hraise. cbn. eauto. }
  assert (Hrest : i ∈ rest).
  { apply elem_of_cons in Hi as [->|Hi]; [congruence | exact Hi]. }
  destruct (py_getitem intensity j) as [x|err]; cbn [res_bind]; [|eauto].
  destruct (np_max (py_slice intensity (j - window) (j + window + 1)))
    as [m|err]; cbn [res_bind]; [|eauto].
  destruct (eqb x m && leb threshold x); [|apply IH, Hrest].
  destruct (py_getitem energy j) as [e|err]; cbn [res_bind]; [|eauto].
  apply IH, Hrest.
Qed.

(** X5. A negative window never gives a result on a non-empty curve: the
    loop runs past the end of the curve and the call raises. *)
Theorem detect_peaks_negative_window
    (energy intensity : list float) (window : Z) (threshold : float) :
  window < 0 ->
  intensity <> [] ->
  exists e, detect_peaks energy intensity window threshold = Raise e.
Proof.
  intros Hw Hne. unfold detect_peaks.
  assert (Hn : 0 < py_len intensity).
  { destruct intensity; [congruence|]. unfold py_len. cbn [length]. lia. }
  destruct (Z.eqb_spec (py_len intensity) 0) as [E|_]; [lia|].
  apply (detect_loop_raises _ _ _ _ _ _ (py_len intensity)).
  - unfold py_range. apply elem_of_seqZ. lia.
  - apply py_getitem_beyond; lia.
Qed.

Lemma detect_peaks_negative_window_witness :
  -1 < 0
  /\ demo_intensity <> []
  /\ exists e, detect_peaks demo_energy demo_intensity (-1) lit_0_2 = Raise e.
Proof.
  split; [lia|]. split; [discriminate|].
  apply (detect_peaks_negative_window demo_energy demo_intensity (-1) lit_0_2);
    [lia | discriminate].
Defined.

Lemma detect_loop_short_energy energy intensity window threshold indices i :
  0 <= window ->
  (forall j, j ∈ indices -> window <= j < py_len intensity - window) ->
  i ∈ indices ->
  peak_test intensity window threshold i = true ->
  py_len energy <= i ->
  forall peaks,
    detect_loop energy intensity window threshold indices peaks = Raise IndexError.
Proof.
  intros Hw. induction indices as [|j rest IH]; intros Hidx Hi Ht He peaks;
    [inversion Hi|].
  assert (Hj : window <= j < py_len intensity - window)
    by (apply Hidx, list_elem_of_here).
  assert (Hrest : forall k, k ∈ rest -> window <= k < py_len intensity - window)
    by (intros k Hk; apply Hidx, list_elem_of_further, Hk).
  destruct (sample_is_Some intensity j) as [x Hx]; [lia|].
  cbn [detect_loop]. rewrite (py_getitem_sample _ _ _ Hx). cbn [res_bind].
  pose proof (eq_refl (peak_test intensity window threshold j)) as Htj.
  unfold peak_test at 2 in Htj. rewrite Hx in Htj.
  destruct (np_max (py_slice intensity (j - window) (j + window + 1)))
    as [m|err] eqn:Hm; cbn [res_bind].
  2:{ exfalso.
      destruct (np_max_nonempty (py_slice intensity (j - window) (j + window + 1)))
        as [m' Hm']; [|congruence].
      intros E.
      assert (Hin : x ∈ py_slice intensity (j - window) (j + window + 1)).
      { apply elem_of_py_slice; [lia|lia|]. exists j. split; [lia | exact Hx]. }
      rewrite E in Hin. inversion Hin. }
  destruct (decide (j = i)) as [->|Hne].
  - rewrite <- Htj, Ht. rewrite py_getitem_beyond by lia. reflexivity.
  - assert (Hirest : i ∈ rest).
    { apply elem_of_cons in Hi as [->|Hi]; [congruence | exact Hi]. }
    destruct (eqb x m && leb threshold x); [|apply IH; assumption].
    destruct (py_getitem energy j) as [e|err] eqn:Hej; cbn [res_bind].
    + apply IH; assumption.
    + f_equal. eapply py_getitem_raises, Hej.
Qed.

(** X6. With an energy curve too short for the intensities, a peak at a
    position the energies do not reach makes the call raise [IndexError]:
    no peak is returned, also none of those found before it. *)
Theorem detect_peaks_short_energy
    (energy intensity : list float) (window : Z) (threshold : float) (i : Z) :
  0 <= window ->
  window <= i <= py_len intensity - 1 - window ->
  is_peak intensity window threshold i ->
  py_len energy <= i ->
  detect_peaks energy intensity window threshold = Raise IndexError.
Proof.
  intros Hw Hi Hpeak He. unfold detect_peaks.
  destruct (Z.eqb_spec (py_len intensity) 0) as [E|_]; [lia|].
  apply (detect_loop_short_energy _ _ _ _ _ i); try assumption.
  - intros j Hj. unfold py_range in Hj. apply elem_of_seqZ in Hj. lia.
  - unfold py_range. apply elem_of_seqZ. lia.
  - apply peak_test_is_peak; [lia | lia | exact Hpeak].
Qed.

Lemma detect_peaks_short_energy_witness :
  0 <= 1
  /\ 1 <= 2 <= py_len demo_intensity - 1 - 1
  /\ is_peak demo_intensity 1 lit_0_2 2
  /\ py_len [of_Z 1; of_Z 2] <= 2
  /\ detect_peaks [of_Z 1; of_Z 2] demo_intensity 1 lit_0_2 = Raise IndexError.
Proof.
  assert (Hpeak : is_peak demo_intensity 1 lit_0_2 2).
  { apply peak_test_is_peak; [lia | lia | reflexivity]. }
  split; [lia|]. split; [change (1 <= 2 <= 3); lia|]. split; [exact Hpeak|].
  split; [change (2 <= 2); lia|].
  apply (detect_peaks_short_energy [of_Z 1; of_Z 2] demo_intensity 1 lit_0_2 2);
    [lia | change (1 <= 2 <= 3); lia | exact Hpeak | change (2 <= 2); lia].
Defined.

Lemma feature_at_feature_of energy intensity positions found :
  Forall2 (feature_at energy intensity) positions found ->
  found = feature_of energy intensity <$> positions.
Proof.
  induction 1 as [|i p positions found [He Hi] _ IH]; [reflexivity|].
  cbn [fmap list_fmap]. f_equal; [|exact IH].
  destruct p as [e x]. unfold feature_of. cbn in He, Hi. rewrite He, Hi. reflexivity.
Qed.

Lemma filter_sublist_impl (P Q : Z -> Prop)
    `{forall i, Decision (P i)} `{forall i, Decision (Q i)} (l : list Z) :
  (forall i, P i -> Q i) -> sublist (filter P l) (filter Q l).
Proof.
  intros HPQ. induction l as [|a l IH]; [constructor|].
  rewrite !filter_cons. destruct (decide (P a)) as [HP|HP].
  - rewrite decide_True by (apply HPQ, HP). constructor. exact IH.
  - destruct (decide (Q a)); [constructor|]; exact IH.
Qed.

Lemma peak_test_threshold_mono intensity window t1 t2 i :
  leb t1 t2 = true ->
  peak_test intensity window t2 i = true ->
  peak_test intensity window t1 i = true.
Proof.
  intros Ht. unfold peak_test.
  destruct (sample intensity i) as [x|]; [|discriminate].
  destruct (np_max (py_slice intensity (i - window) (i + window + 1))) as [m|];
    [|discriminate].
  intros [H1 H2]%andb_true_iff. rewrite H1. cbn.
  eapply leb_trans; eassumption.
Qed.

(** The detector on well-formed arguments, as a filter of the positions. *)
Lemma detect_peaks_as_filter energy intensity window threshold :
  length energy = length intensity ->
  0 <= window ->
  detect_peaks energy intensity window threshold =
  Ok (feature_of energy intensity <$>
        filter (fun i => peak_test intensity window threshold i = true)
          (py_range window (py_len intensity - window))).
Proof.
  intros Hlen Hw. unfold detect_peaks.
  destruct (Z.eqb_spec (py_len intensity) 0) as [Hn|Hn].
  - rewrite Hn. unfold py_range. rewrite seqZ_nil by lia. reflexivity.
  - destruct (detect_loop_filter energy intensity window threshold
                (py_range window (py_len intensity - window)) Hlen Hw)
      with (peaks := @nil SpectrumFeature) as [found [Hrun Hall]].
    { intros i Hi. unfold py_range in Hi. apply elem_of_seqZ in Hi. lia. }
    rewrite Hrun. cbn [app]. f_equal. apply feature_at_feature_of, Hall.
Qed.

(** X7. Raising the threshold only removes peaks: on the same curves and
    window, the peaks found with the higher threshold are a sublist, in
    order, of those found with the lower one. *)
Theorem detect_peaks_threshold_monotone
    (energy intensity : list float) (window : Z) (t1 t2 : float) :
  length energy = length intensity ->
  0 <= window ->
  leb t1 t2 = true ->
  exists peaks1 peaks2,
    detect_peaks energy intensity window t1 = Ok peaks1
    /\ detect_peaks energy intensity window t2 = Ok peaks2
    /\ sublist peaks2 peaks1.
Proof.
  intros Hlen Hw Ht.
  rewrite !detect_peaks_as_filter by assumption.
  eexists _, _. split; [reflexivity|]. split; [reflexivity|].
  apply fmap_sublist, filter_sublist_impl.
  intros i. apply peak_test_threshold_mono, Ht.
Qed.

Lemma detect_peaks_threshold_monotone_witness :
  length demo_energy = length demo_intensity
  /\ 0 <= 0
  /\ leb lit_0_2 (of_Z 1) = true
  /\ exists peaks1 peaks2,
       detect_peaks demo_energy demo_intensity 0 lit_0_2 = Ok peaks1
       /\ detect_peaks demo_energy demo_intensity 0 (of_Z 1) = Ok peaks2
       /\ sublist peaks2 peaks1.
Proof.
  split; [reflexivity|]. split; [lia|]. split; [reflexivity|].
  apply (detect_peaks_threshold_monotone demo_energy demo_intensity 0
           lit_0_2 (of_Z 1)); [reflexivity | lia | reflexivity].
Defined.

(** ** The numeric path of [analyze_spectrum] *)

Lemma np_min_nonempty l : l <> [] -> exists m, np_min l = Ok m.
Proof. destruct l; [congruence|]. cbn. eauto. Qed.

Lemma py_len_nonempty {A} (l : list A) : l <> [] -> (py_len l =? 0) = false.
Proof.
  intros H. destruct l; [congruence|]. apply Z.eqb_neq. unfold py_len.
  cbn [length]. lia.
Qed.

Lemma normalize_intensity_nonempty intensity :
  intensity <> [] ->
  exists r, normalize_intensity intensity = Ok r /\ length r = length intensity.
Proof.
  intros Hne. destruct intensity as [|x l]; [congruence|].
  unfold normalize_intensity. cbn [np_max res_bind].
  destruct (leb (fold_left np_maximum l x) zero); eexists; split;
    try reflexivity. apply length_fmap.
Qed.

(** X8. The handler rejects the empty curve with status 400, and goes
    through on every other one whose two columns have the same length: no
    step before the language model raises, the result counts the points, and
    the plotted curve has one point for each of them. *)
Theorem analyze_spectrum_numeric_returns (energy intensity : list float) :
  length energy = length intensity ->
  match analyze_spectrum_numeric energy intensity with
  | Rejected status => energy = [] /\ status = 400
  | Crashed _ => False
  | Returned r =>
      energy <> []
      /\ num_points r = py_len energy
      /\ length (curve r) = length energy
      /\ normalized r = true
  end.
Proof.
  intros Hlen. unfold analyze_spectrum_numeric.
  destruct energy as [|e0 energy]; [split; reflexivity|].
  rewrite py_len_nonempty by discriminate.
  assert (Hine : intensity <> []) by (destruct intensity; [discriminate | discriminate]).
  destruct (normalize_intensity_nonempty intensity Hine) as [norm [Hnorm Hnlen]].
  rewrite Hnorm. cbn [crash_bind].
  rewrite detect_peaks_as_filter by (congruence || lia). cbn [crash_bind].
  destruct intensity as [|i0 intensity]; [congruence|].
  destruct norm as [|n0 norm]; [discriminate|].
  cbn [zip_with fmap list_fmap py_min py_max np_min np_max crash_bind].
  split; [discriminate|]. split; [reflexivity|]. split; [|reflexivity].
  cbn [curve length]. rewrite length_zip_with. cbn [length] in *. lia.
Qed.

Lemma analyze_spectrum_numeric_returns_witness :
  length demo_energy = length demo_raw_curve
  /\ match analyze_spectrum_numeric demo_energy demo_raw_curve with
     | Rejected status => demo_energy = [] /\ status = 400
     | Crashed _ => False
     | Returned r =>
         demo_energy <> []
         /\ num_points r = py_len demo_energy
         /\ length (curve r) = length demo_energy
         /\ normalized r = true
     end.
Proof.
  split; [reflexivity|].
  apply (analyze_spectrum_numeric_returns demo_energy demo_raw_curve). reflexivity.
Defined.

Lemma sample_elem (a : list float) i x : sample a i = Some x -> x ∈ a.
Proof.
  unfold sample. destruct (i <? 0); [discriminate|].
  apply list_elem_of_lookup_2.
Qed.

Lemma sample_fmap (f : float -> float) (a : list float) i :
  sample (f <$> a) i = f <$> sample a i.
Proof. unfold sample. destruct (i <? 0); [reflexivity|]. apply list_lookup_fmap. Qed.

Lemma peak_test_sample intensity window threshold i :
  peak_test intensity window threshold i = true ->
  exists x, sample intensity i = Some x /\ leb threshold x = true.
Proof.
  unfold peak_test. destruct (sample intensity i) as [x|]; [|discriminate].
  destruct (np_max (py_slice intensity (i - window) (i + window + 1))) as [m|];
    [|discriminate].
  intros [_ H]%andb_true_iff. eauto.
Qed.

Lemma filter_none (P : Z -> Prop) `{forall i, Decision (P i)} (l : list Z) :
  (forall i, i ∈ l -> ~ P i) -> filter P l = [].
Proof.
  induction l as [|a l IH]; intros Hall; [reflexivity|].
  rewrite filter_cons_False by (apply Hall, list_elem_of_here).
  apply IH. intros i Hi. apply Hall, list_elem_of_further, Hi.
Qed.

Lemma curve_intensities (energy intensity : list float) :
  length energy = length intensity ->
  cp_intensity <$>
    zip_with (fun e i => {| cp_energy := e; cp_intensity := i |}) energy intensity
  = intensity.
Proof.
  revert intensity. induction energy as [|e energy IH]; intros [|i intensity] Hlen;
    try discriminate; [reflexivity|].
  cbn. f_equal. apply IH. cbn in Hlen. lia.
Qed.

Lemma normalize_intensity_of_nonpositive intensity m :
  is_maximum_of m intensity -> leb m zero = true ->
  normalize_intensity intensity = Ok intensity.
Proof.
  intros Hmax Hle.
  destruct (np_max_nonempty intensity) as [m' Hm'].
  { destruct Hmax as [[y [Hy _]] _]. intros E. rewrite E in Hy. inversion Hy. }
  unfold normalize_intensity. rewrite Hm'. cbn [res_bind].
  replace (leb m' zero) with true; [reflexivity|]. symmetry.
  eapply leb_trans; [|exact Hle].
  apply eqb_geb, (np_max_is_max _ _ _ Hm'), Hmax.
Qed.

Lemma normalize_intensity_of_positive intensity m :
  is_maximum_of m intensity -> ltb zero m = true ->
  normalize_intensity intensity = Ok ((fun x => div x m) <$> intensity).
Proof.
  intros Hmax Hpos. unfold normalize_intensity.
  rewrite (np_max_of_maximum _ _ Hmax Hpos). cbn [res_bind].
  rewrite (ltb_not_leb _ _ Hpos). reflexivity.
Qed.

Lemma analyze_spectrum_numeric_peaks energy intensity norm :
  length energy = length intensity ->
  energy <> [] ->
  normalize_intensity intensity = Ok norm ->
  length norm = length intensity ->
  exists r,
    analyze_spectrum_numeric energy intensity = Returned r
    /\ peaks r = feature_of energy norm <$>
                   filter (fun i => peak_test norm 5 lit_0_2 i = true)
                     (py_range 5 (py_len norm - 5))
    /\ curve r = zip_with (fun e i => {| cp_energy := e; cp_intensity := i |})
                   energy norm.
Proof.
  intros Hlen Hne Hnorm Hnlen. unfold analyze_spectrum_numeric.
  rewrite py_len_nonempty by exact Hne. rewrite Hnorm. cbn [crash_bind].
  rewrite detect_peaks_as_filter by (congruence || lia). cbn [crash_bind].
  destruct energy as [|e0 energy]; [congruence|].
  destruct intensity as [|i0 intensity]; [discriminate|].
  destruct norm as [|n0 norm]; [discriminate|].
  cbn [zip_with fmap list_fmap py_min py_max np_min np_max crash_bind].
  eexists. split; [reflexivity|]. split; reflexivity.
Qed.

Lemma analyze_spectrum_numeric_normalized energy intensity r :
  analyze_spectrum_numeric energy intensity = Returned r -> normalized r = true.
Proof.
  unfold analyze_spectrum_numeric. destruct (py_len energy =? 0); [discriminate|].
  repeat match goal with
         | |- crash_bind ?x _ = _ -> _ =>
             destruct x; cbn [crash_bind]; [|discriminate]
         end.
  intros [= <-]. reflexivity.
Qed.

(** X9. A curve without a positive sample comes out of the handler as it
    went in, and with no peak: the curve is not rescaled, and the default
    threshold 0.2 is above every sample. The result is marked as normalised
    all the same. *)
Theorem analyze_spectrum_no_positive_sample
    (energy intensity : list float) (m : float) :
  length energy = length intensity ->
  is_maximum_of m intensity ->
  leb m zero = true ->
  exists r,
    analyze_spectrum_numeric energy intensity = Returned r
    /\ peaks r = []
    /\ cp_intensity <$> curve r = intensity
    /\ normalized r = true.
Proof.
  intros Hlen Hmax Hle.
  assert (Hne : energy <> []).
  { destruct Hmax as [[y [Hy _]] _]. destruct intensity; [inversion Hy|].
    destruct energy; [discriminate | discriminate]. }
  destruct (analyze_spectrum_numeric_peaks energy intensity intensity Hlen Hne)
    as [r [Hr [Hpeaks Hcurve]]];
    [eapply normalize_intensity_of_nonpositive; eassumption | reflexivity|].
  exists r. split; [exact Hr|]. split; [|split].
  - rewrite Hpeaks, filter_none; [reflexivity|].
    intros i _ Ht. apply peak_test_sample in Ht as [x [Hx Hx2]].
    assert (Hbad : leb lit_0_2 zero = true).
    { eapply leb_trans; [exact Hx2|]. eapply leb_trans; [|exact Hle].
      apply Hmax. eapply sample_elem, Hx. }
    discriminate Hbad.
  - rewrite Hcurve. apply curve_intensities, Hlen.
  - eapply analyze_spectrum_numeric_normalized, Hr.
Qed.

Lemma analyze_spectrum_no_positive_sample_witness :
  length demo_long_energy = length demo_long_negative
  /\ is_maximum_of zero demo_long_negative
  /\ leb zero zero = true
  /\ exists r,
       analyze_spectrum_numeric demo_long_energy demo_long_negative = Returned r
       /\ peaks r = []
       /\ cp_intensity <$> curve r = demo_long_negative
       /\ normalized r = true.
Proof.
  split; [reflexivity|]. split; [apply is_maximum_ofb_correct; reflexivity|].
  split; [reflexivity|].
  apply (analyze_spectrum_no_positive_sample demo_long_energy demo_long_negative
           zero);
    [reflexivity | apply is_maximum_ofb_correct; reflexivity | reflexivity].
Defined.

(** On that curve the default window examines the positions 5 and 6; the
    sample at 6 is the maximum of its window, so that a threshold of -1
    would make it a peak, and it is below the threshold 0.2. *)
Example demo_long_negative_scanned :
  py_range 5 (py_len demo_long_negative - 5) = [5; 6]
  /\ peak_test demo_long_negative 5 (of_Z (-1)) 6 = true
  /\ peak_test demo_long_negative 5 lit_0_2 6 = false.
Proof. repeat split; reflexivity. Qed.

(** X10. On a curve of binary64 numbers with a strictly positive finite
    maximum, the handler reports the maximum as a peak of intensity exactly
    1.0 whenever it sits at least five samples from both ends, and every
    peak it reports has an intensity between the threshold 0.2 and 1.0. *)
Theorem analyze_spectrum_reports_maximum
    (energy intensity : list float) (m e : float) (i : Z) :
  Forall (fun x => valid x = true) intensity ->
  length energy = length intensity ->
  is_maximum_of m intensity ->
  ltb zero m = true ->
  is_finite m = true ->
  5 <= i <= py_len intensity - 6 ->
  sample intensity i = Some m ->
  sample energy i = Some e ->
  exists r,
    analyze_spectrum_numeric energy intensity = Returned r
    /\ {| peak_energy := e; peak_intensity := one |} ∈ peaks r
    /\ Forall (fun p => leb lit_0_2 (peak_intensity p) = true
                        /\ leb (peak_intensity p) one = true) (peaks r).
Proof.
  intros Hvalid Hlen Hmax Hpos Hfin Hi Hsi Hse.
  assert (Hne : energy <> []).
  { apply sample_elem in Hse. destruct energy; [inversion Hse | discriminate]. }
  set (norm := (fun x => div x m) <$> intensity).
  assert (Hnlen : length norm = length intensity) by apply length_fmap.
  destruct (analyze_spectrum_numeric_peaks energy intensity norm Hlen Hne)
    as [r [Hr [Hpeaks _]]];
    [apply normalize_intensity_of_positive; assumption | exact Hnlen|].
  assert (Hle1 : forall y, y ∈ norm -> leb y one = true).
  { intros y Hy. apply list_elem_of_fmap in Hy as [x [-> Hx]].
    destruct m as [s|s| |s mm me]; try discriminate.
    destruct s; [discriminate|].
    apply div_le_one.
    - rewrite Forall_forall in Hvalid. apply Hvalid, Hx.
    - rewrite Forall_forall in Hvalid. eapply Hvalid, sample_elem, Hsi.
    - apply Hmax, Hx. }
  assert (Hone : sample norm i = Some one).
  { unfold norm. rewrite sample_fmap, Hsi. cbn. f_equal.
    destruct m as [s|s| |s mm me]; try discriminate. apply div_self. }
  exists r. split; [exact Hr|]. rewrite Hpeaks. split.
  - apply list_elem_of_fmap. exists i. split.
    + unfold feature_of. rewrite Hse, Hone. reflexivity.
    + apply list_elem_of_filter. split.
      * apply peak_test_is_peak; [lia | lia|].
        exists one. split; [exact Hone|]. split; [split|reflexivity].
        -- exists one. split; [|reflexivity].
           apply elem_of_window_samples. exists i. split; [lia | exact Hone].
        -- intros y Hy. apply elem_of_window_samples in Hy as [j [_ Hj]].
           eapply Hle1, sample_elem, Hj.
      * unfold py_range. apply elem_of_seqZ. unfold py_len in *. lia.
  - apply Forall_fmap, Forall_forall. intros j Hj.
    apply list_elem_of_filter in Hj as [Ht _].
    apply peak_test_sample in Ht as [x [Hx Hx2]].
    cbn. rewrite Hx. cbn. split; [exact Hx2|]. eapply Hle1, sample_elem, Hx.
Qed.

Lemma analyze_spectrum_reports_maximum_witness :
  Forall (fun x => valid x = true) demo_long_curve
  /\ length demo_long_energy = length demo_long_curve
  /\ is_maximum_of (of_Z 20) demo_long_curve
  /\ ltb zero (of_Z 20) = true
  /\ is_finite (of_Z 20) = true
  /\ 5 <= 6 <= py_len demo_long_curve - 6
  /\ sample demo_long_curve 6 = Some (of_Z 20)
  /\ sample demo_long_energy 6 = Some (of_Z 7)
  /\ exists r,
       analyze_spectrum_numeric demo_long_energy demo_long_curve = Returned r
       /\ {| peak_energy := of_Z 7; peak_intensity := one |} ∈ peaks r
       /\ Forall (fun p => leb lit_0_2 (peak_intensity p) = true
                           /\ leb (peak_intensity p) one = true) (peaks r).
Proof.
  split; [repeat constructor|]. split; [reflexivity|].
  split; [apply is_maximum_ofb_correct; reflexivity|].
  split; [reflexivity|]. split; [reflexivity|].
  split; [change (5 <= 6 <= 6); lia|]. split; [reflexivity|]. split; [reflexivity|].
  apply (analyze_spectrum_reports_maximum demo_long_energy demo_long_curve
           (of_Z 20) (of_Z 7) 6);
    [repeat constructor | reflexivity | apply is_maximum_ofb_correct; reflexivity
     | reflexivity | reflexivity | change (5 <= 6 <= 6); lia
     | reflexivity | reflexivity].
Defined.

Example analyze_spectrum_numeric_sample :
  analyze_spectrum_numeric demo_long_energy demo_long_curve
  = Returned
      {| num_points := 12; min_energy := of_Z 1; max_energy := of_Z 12;
         max_intensity := of_Z 20; normalized := true;
         peaks := [{| peak_energy := of_Z 7; peak_intensity := one |}];
         curve := zip_with (fun e i => {| cp_energy := e; cp_intensity := i |})
                    demo_long_energy
                    ((fun x => div x (of_Z 20)) <$> demo_long_curve) |}.
Proof. vm_compute. reflexivity. Qed.

(** ** The constructor and the process-wide store *)

(** X11. With a key, the constructor creates the index only when the
    listing does not have it, then opens it and returns an enabled store
    bound to the configured index name. *)
Theorem PineconeRAG_init_creates_missing_index (B : backend) (cfg : Config)
    (existing : list string) (w w1 w2 : world B) :
  PINECONE_API_KEY cfg <> EmptyString ->
  on_pinecone_client B (PINECONE_API_KEY cfg) w = (Ok tt, w1) ->
  on_list_indexes B w1 = (Ok existing, w2) ->
  (forall w', exists w'',
      on_create_index B (PINECONE_INDEX_NAME cfg) 1536 "cosine" "aws" "us-east-1" w'
      = (Ok tt, w'')) ->
  (forall w', exists w'', on_open_index B (PINECONE_INDEX_NAME cfg) w' = (Ok tt, w'')) ->
  exists w3 tr,
    run B (PineconeRAG_init cfg) w
    = (Ok {| enabled := true; index := Some (PINECONE_INDEX_NAME cfg) |}, w3, tr)
    /\ (Exists (fun ev => is_create_index ev = true) tr
        <-> PINECONE_INDEX_NAME cfg ∉ existing).
Proof.
  intros Hkey Hclient Hlist Hcreate Hopen. unfold PineconeRAG_init.
  destruct (String.eqb_spec (PINECONE_API_KEY cfg) EmptyString) as [E|_];
    [contradiction|].
  cbn [bind perform run handle]. rewrite Hclient. cbn [bind run handle].
  rewrite Hlist. cbn [bind].
  destruct (decide (PINECONE_INDEX_NAME cfg ∈ existing)) as [Hin|Hout].
  - rewrite bool_decide_eq_true_2 by exact Hin. cbn [bind run handle].
    destruct (Hopen w2) as [w3 Ho]. rewrite Ho. cbn [bind run].
    eexists _, _. split; [reflexivity|]. split.
    + intros Hex. repeat (apply Exists_cons in Hex as [Hex|Hex]; [discriminate|]).
      inversion Hex.
    + intros Hnot. contradiction.
  - rewrite bool_decide_eq_false_2 by exact Hout. cbn [bind perform run handle].
    destruct (Hcreate w2) as [w3 Hc]. rewrite Hc. cbn [bind run handle].
    destruct (Hopen w3) as [w4 Ho]. rewrite Ho. cbn [bind run].
    eexists _, _. split; [reflexivity|]. split; [intros _; exact Hout|].
    intros _. do 2 apply Exists_cons_tl. apply Exists_cons_hd. reflexivity.
Qed.

Lemma PineconeRAG_init_creates_missing_index_witness :
  PINECONE_API_KEY demo_config <> EmptyString
  /\ on_pinecone_client demo_backend (PINECONE_API_KEY demo_config)
       (demo_world_at 0 []) = (Ok tt, demo_world_at 0 [])
  /\ on_list_indexes demo_backend (demo_world_at 0 [])
     = (Ok ["xray-rag"%string], demo_world_at 0 [])
  /\ (forall w', exists w'',
         on_create_index demo_backend (PINECONE_INDEX_NAME demo_config)
           1536 "cosine" "aws" "us-east-1" w' = (Ok tt, w''))
  /\ (forall w', exists w'',
         on_open_index demo_backend (PINECONE_INDEX_NAME demo_config) w' = (Ok tt, w''))
  /\ exists w3 tr,
       run demo_backend (PineconeRAG_init demo_config) (demo_world_at 0 [])
       = (Ok {| enabled := true; index := Some (PINECONE_INDEX_NAME demo_config) |},
          w3, tr)
       /\ (Exists (fun ev => is_create_index ev = true) tr
           <-> PINECONE_INDEX_NAME demo_config ∉ ["xray-rag"%string]).
Proof.
  split; [discriminate|]. split; [reflexivity|]. split; [reflexivity|].
  split; [intros w'; eexists; reflexivity|].
  split; [intros w'; eexists; reflexivity|].
  apply (PineconeRAG_init_creates_missing_index demo_backend demo_config
           ["xray-rag"%string] (demo_world_at 0 []) (demo_world_at 0 [])
           (demo_world_at 0 []));
    [discriminate | reflexivity | reflexivity
     | intros w'; eexists; reflexivity | intros w'; eexists; reflexivity].
Defined.

(** X12. Once a call of [get_rag_store] has returned, every later call
    returns the same thing, keeps the global, and makes no call to any
    service: the store is built, and the toy documents are ingested, at most
    once. *)
Theorem get_rag_store_second_call (B : backend) (cfg : Config)
    (g1 r1 : option PineconeRAG) (w w1 : world B) (tr1 : list event) :
  run B (get_rag_store cfg None) w = (Ok (g1, Ok r1), w1, tr1) ->
  forall w2, run B (get_rag_store cfg g1) w2 = (Ok (g1, Ok r1), w2, []).
Proof.
  unfold get_rag_store at 1. rewrite run_bind, run_attempt.
  destruct (run B (PineconeRAG_init cfg) w) as [[[rag|e] w'] tr']; cbn.
  2:{ intros [= _ _]. }
  destruct (enabled rag) eqn:Hen.
  - rewrite run_bind, run_attempt.
    destruct (run B (upsert_docs cfg rag toy_docs "default") w')
      as [[[u|e] w''] tr'']; cbn.
    + intros [= <- <- _ _] w2. reflexivity.
    + intros [= _ _].
  - cbn. intros [= <- <- _ _] w2. reflexivity.
Qed.

Lemma get_rag_store_second_call_witness :
  run demo_backend (get_rag_store demo_config None) (demo_world [])
  = (Ok (Some demo_store, Ok (Some demo_store)), demo_world_ingested,
     demo_first_call_trace)
  /\ forall w2,
       run demo_backend (get_rag_store demo_config (Some demo_store)) w2
       = (Ok (Some demo_store, Ok (Some demo_store)), w2, []).
Proof.
  split; [vm_compute; reflexivity|].
  apply (get_rag_store_second_call demo_backend demo_config
           (Some demo_store) (Some demo_store)
           (demo_world []) demo_world_ingested demo_first_call_trace).
  vm_compute. reflexivity.
Defined.

(** The first call of that run builds the store and ingests the four toy
    documents in one insertion; a call made after it, on the index it
    left, makes no call at all. *)
Example get_rag_store_ingests_once :
  upsert_size <$> demo_first_call_trace
  = [0; 0; 0; 0; 0; 0; 0; 0; 0; 0; 0; 0; 4]%nat
  /\ run demo_backend (get_rag_store demo_config (Some demo_store))
       demo_world_ingested
     = (Ok (Some demo_store, Ok (Some demo_store)), demo_world_ingested, []).
Proof. split; reflexivity. Qed.

(** X13. A constructor that raises is not remembered: the call raises the
    same exception and the global stays unset, so the next call constructs
    again. *)
Theorem get_rag_store_failed_construction (B : backend) (cfg : Config)
    (e : exn) (w w1 : world B) (tr1 : list event) :
  run B (PineconeRAG_init cfg) w = (Raise e, w1, tr1) ->
  run B (get_rag_store cfg None) w = (Ok (None, Raise e), w1, tr1).
Proof.
  intros Hinit. unfold get_rag_store. rewrite run_bind, run_attempt, Hinit.
  cbn. rewrite app_nil_r. reflexivity.
Qed.

Lemma get_rag_store_failed_construction_witness :
  run (outage_backend false true) (PineconeRAG_init demo_config) tt
  = (Raise (BackendError "no client"), tt,
     [Event (pinecone_client "key") (Raise (BackendError "no client"))])
  /\ run (outage_backend false true) (get_rag_store demo_config None) tt
     = (Ok (None, Raise (BackendError "no client")), tt,
        [Event (pinecone_client "key") (Raise (BackendError "no client"))]).
Proof.
  split; [reflexivity|].
  apply (get_rag_store_failed_construction (outage_backend false true) demo_config
           (BackendError "no client") tt tt
           [Event (pinecone_client "key") (Raise (BackendError "no client"))]).
  reflexivity.
Defined.

(** X14. A first ingestion that fails on the embedding call is not
    repeated: the call raises, but the store is already held by the global,
    and the next call returns it without ingesting the toy documents. *)
Theorem get_rag_store_failed_ingestion (B : backend) (cfg : Config)
    (rag : PineconeRAG) (e : exn) (w w1 w2 : world B) (tr1 : list event) :
  run B (PineconeRAG_init cfg) w = (Ok rag, w1, tr1) ->
  enabled rag = true ->
  on_embeddings_create B (EMBEDDING_MODEL cfg) toy_docs w1 = (Raise e, w2) ->
  run B (get_rag_store cfg None) w
  = (Ok (Some rag, Raise e), w2,
     tr1 ++ [Event (embeddings_create (EMBEDDING_MODEL cfg) toy_docs) (Raise e)])
  /\ forall w3,
       run B (get_rag_store cfg (Some rag)) w3 = (Ok (Some rag, Ok (Some rag)), w3, []).
Proof.
  intros Hinit Hen Hemb. split.
  - unfold get_rag_store. rewrite run_bind, run_attempt, Hinit. cbn.
    rewrite Hen. rewrite run_bind, run_attempt.
    unfold upsert_docs. rewrite Hen. cbn [negb orb bool_decide].
    rewrite bool_decide_eq_false_2 by discriminate.
    rewrite run_bind. unfold embed_text. rewrite run_perform. cbn [handle].
    rewrite Hemb. cbn. reflexivity.
  - intros w3. cbn. unfold store_if_enabled. rewrite Hen. reflexivity.
Qed.

Lemma get_rag_store_failed_ingestion_witness :
  run (outage_backend true false) (PineconeRAG_init demo_config) tt
  = (Ok demo_store, tt,
     [Event (pinecone_client "key") (Ok tt);
      Event list_indexes (Ok ["xray-rag"%string]);
      Event (open_index "xray-rag") (Ok tt)])
  /\ enabled demo_store = true
  /\ on_embeddings_create (outage_backend true false) (EMBEDDING_MODEL demo_config)
       toy_docs tt = (Raise (BackendError "no embeddings"), tt)
  /\ run (outage_backend true false) (get_rag_store demo_config None) tt
     = (Ok (Some demo_store, Raise (BackendError "no embeddings")), tt,
        [Event (pinecone_client "key") (Ok tt);
         Event list_indexes (Ok ["xray-rag"%string]);
         Event (open_index "xray-rag") (Ok tt)]
        ++ [Event (embeddings_create (EMBEDDING_MODEL demo_config) toy_docs)
              (Raise (BackendError "no embeddings"))])
  /\ forall w3,
       run (outage_backend true false) (get_rag_store demo_config (Some demo_store)) w3
       = (Ok (Some demo_store, Ok (Some demo_store)), w3, []).
Proof.
  split; [reflexivity|]. split; [reflexivity|]. split; [reflexivity|].
  apply (get_rag_store_failed_ingestion (outage_backend true false) demo_config
           demo_store (BackendError "no embeddings") tt tt tt
           [Event (pinecone_client "key") (Ok tt);
            Event list_indexes (Ok ["xray-rag"%string]);
            Event (open_index "xray-rag") (Ok tt)]);
    reflexivity.
Defined.

(** X15. Without a Pinecone key the chat handler fails at its second
    statement: [get_rag_store] returns [None], calling [retrieve] on it
    raises [AttributeError], on the first request and on every later one,
    and no service is called. *)
Theorem chat_retrieve_disabled_store (B : backend) (cfg : Config)
    (message : string) (w : world B) :
  PINECONE_API_KEY cfg = EmptyString ->
  run B (chat_retrieve cfg None message) w
  = (Ok (Some {| enabled := false; index := None |}, Raise AttributeError), w, [])
  /\ run B (chat_retrieve cfg (Some {| enabled := false; index := None |}) message) w
     = (Ok (Some {| enabled := false; index := None |}, Raise AttributeError), w, []).
Proof.
  intros Hkey. split; [|reflexivity].
  unfold chat_retrieve, get_rag_store, PineconeRAG_init. rewrite Hkey. reflexivity.
Qed.

Lemma chat_retrieve_disabled_store_witness :
  PINECONE_API_KEY demo_config_no_key = EmptyString
  /\ run demo_backend (chat_retrieve demo_config_no_key None "what is XAS?")
       demo_world_stocked
     = (Ok (Some {| enabled := false; index := None |}, Raise AttributeError),
        demo_world_stocked, [])
  /\ run demo_backend
       (chat_retrieve demo_config_no_key
          (Some {| enabled := false; index := None |}) "what is XAS?")
       demo_world_stocked
     = (Ok (Some {| enabled := false; index := None |}, Raise AttributeError),
        demo_world_stocked, []).
Proof.
  split; [reflexivity|].
  apply (chat_retrieve_disabled_store demo_backend demo_config_no_key
           "what is XAS?" demo_world_stocked).
  reflexivity.
Defined.

(** ** Ingestion and retrieval, beyond the claims *)

(** X16. When the embedding call raises, [upsert_docs] raises the same
    exception and has called nothing else: no query, no insertion. *)
Theorem upsert_docs_embedding_failure (B : backend) (cfg : Config)
    (self : PineconeRAG) (docs : list string) (ns : string) (e : exn)
    (w w1 : world B) :
  enabled self = true ->
  docs <> [] ->
  on_embeddings_create B (EMBEDDING_MODEL cfg) docs w = (Raise e, w1) ->
  run B (upsert_docs cfg self docs ns) w
  = (Raise e, w1, [Event (embeddings_create (EMBEDDING_MODEL cfg) docs) (Raise e)]).
Proof.
  intros Hen Hdocs Hemb. unfold upsert_docs.
  rewrite Hen, bool_decide_eq_false_2 by exact Hdocs. cbn [negb orb].
  rewrite run_bind. unfold embed_text. rewrite run_perform. cbn [handle].
  rewrite Hemb. reflexivity.
Qed.

Lemma upsert_docs_embedding_failure_witness :
  enabled demo_store = true
  /\ ["a"%string] <> []
  /\ on_embeddings_create (outage_backend true false) (EMBEDDING_MODEL demo_config)
       ["a"%string] tt = (Raise (BackendError "no embeddings"), tt)
  /\ run (outage_backend true false)
       (upsert_docs demo_config demo_store ["a"%string] "default") tt
     = (Raise (BackendError "no embeddings"), tt,
        [Event (embeddings_create (EMBEDDING_MODEL demo_config) ["a"%string])
           (Raise (BackendError "no embeddings"))]).
Proof.
  split; [reflexivity|]. split; [discriminate|]. split; [reflexivity|].
  apply (upsert_docs_embedding_failure (outage_backend true false) demo_config
           demo_store ["a"%string] "default" (BackendError "no embeddings") tt tt);
    [reflexivity | discriminate | reflexivity].
Defined.

Lemma dedup_pass_counts idx ns pairs tr staged :
  dedup_pass (dedup_step idx ns) pairs tr staged ->
  length (filter (fun ev => is_index_query ev = true) tr) = length pairs
  /\ (length staged <= length pairs)%nat
  /\ Forall (fun ev => upsert_size ev = 0%nat) tr.
Proof.
  induction 1 as [|text emb pairs tr1 o tr staged Hstep _ (IH1 & IH2 & IH3)].
  - repeat split; constructor.
  - rewrite filter_app, !length_app, IH1. cbn [length].
    destruct Hstep as [Hstep|Hstep]; destruct Hstep; cbn;
      (split; [reflexivity|]); (split; [lia|]); repeat constructor; exact IH3.
Qed.

(** X17. One dedup query is made for each (text, embedding) pair and no
    more: their number is the smaller of the number of documents and the
    number of embeddings answered, and no insertion carries more records
    than that. Documents for which the provider answered no embedding are
    not looked at. *)
Theorem upsert_docs_one_query_per_pair (B : backend) (cfg : Config)
    (self : PineconeRAG) (idx ns : string) (docs : list string)
    (embeddings : list vector) (w w1 : world B) :
  enabled self = true ->
  index self = Some idx ->
  docs <> [] ->
  on_embeddings_create B (EMBEDDING_MODEL cfg) docs w = (Ok embeddings, w1) ->
  exists out w2 tr,
    run B (upsert_docs cfg self docs ns) w = (out, w2, tr)
    /\ length (filter (fun ev => is_index_query ev = true) tr)
       = (length docs `min` length embeddings)%nat
    /\ Forall (fun ev => (upsert_size ev <= length docs `min` length embeddings)%nat) tr.
Proof.
  intros Hen Hidx Hdocs Hemb.
  rewrite (run_upsert_docs B cfg self ns docs embeddings w w1 Hen Hdocs Hemb).
  destruct (run_dedup_loop B self idx Hidx ns (zip docs embeddings) [] w1)
    as [staged [w2 [tr [Hrun Hpass]]]].
  destruct (dedup_pass_counts _ _ _ _ _ Hpass) as (Hq & Hs & Hu).
  rewrite length_zip_with in Hq, Hs.
  rewrite Hrun, app_nil_l, (run_insert_staged B self idx Hidx).
  assert (Hu' : Forall (fun ev => (upsert_size ev
                                   <= length docs `min` length embeddings)%nat) tr).
  { eapply Forall_impl; [exact Hu|]. intros ev ->. lia. }
  destruct staged as [|v staged].
  - eexists _, _, _. split; [reflexivity|].
    change (length (filter (fun ev => is_index_query ev = true)
                      ([Event (embeddings_create (EMBEDDING_MODEL cfg) docs)
                          (Ok embeddings)] ++ tr ++ []))
            = (length docs `min` length embeddings)%nat
            /\ Forall (fun ev => (upsert_size ev
                                  <= length docs `min` length embeddings)%nat)
                 ([Event (embeddings_create (EMBEDDING_MODEL cfg) docs)
                     (Ok embeddings)] ++ tr ++ [])).
    rewrite app_nil_r, filter_app, length_app, Hq.
    rewrite filter_cons_False, filter_nil by (cbn; discriminate).
    split; [cbn; lia|].
    apply Forall_app. split; [repeat constructor; cbn; lia | exact Hu'].
  - destruct (on_index_upsert B idx (v :: staged) ns w2) as [r w3].
    eexists _, _, _. split; [reflexivity|].
    change (length (filter (fun ev => is_index_query ev = true)
                      ([Event (embeddings_create (EMBEDDING_MODEL cfg) docs)
                          (Ok embeddings)]
                       ++ tr ++ [Event (index_upsert idx (v :: staged) ns) r]))
            = (length docs `min` length embeddings)%nat
            /\ Forall (fun ev => (upsert_size ev
                                  <= length docs `min` length embeddings)%nat)
                 ([Event (embeddings_create (EMBEDDING_MODEL cfg) docs)
                     (Ok embeddings)]
                  ++ tr ++ [Event (index_upsert idx (v :: staged) ns) r])).
    rewrite !filter_app, !length_app, Hq.
    rewrite !filter_cons_False, filter_nil by (cbn; discriminate).
    split; [cbn; lia|].
    apply Forall_app. split; [repeat constructor; cbn; lia|].
    apply Forall_app. split; [exact Hu'|].
    constructor; [exact Hs | constructor].
Qed.

Lemma upsert_docs_one_query_per_pair_witness :
  enabled demo_store = true
  /\ index demo_store = Some "xray-rag"%string
  /\ ["a"; "bb"; "abc"]%string <> []
  /\ on_embeddings_create demo_backend (EMBEDDING_MODEL demo_config)
       ["a"; "bb"; "abc"]%string (demo_world [])
     = (Ok (demo_embed <$> ["a"; "bb"; "abc"]%string), demo_world [])
  /\ exists out w2 tr,
       run demo_backend
         (upsert_docs demo_config demo_store ["a"; "bb"; "abc"]%string "default")
         (demo_world []) = (out, w2, tr)
       /\ length (filter (fun ev => is_index_query ev = true) tr)
          = (length ["a"; "bb"; "abc"]%string
             `min` length (demo_embed <$> ["a"; "bb"; "abc"]%string))%nat
       /\ Forall (fun ev =>
                    (upsert_size ev
                     <= length ["a"; "bb"; "abc"]%string
                        `min` length (demo_embed <$> ["a"; "bb"; "abc"]%string))%nat)
            tr.
Proof.
  split; [reflexivity|]. split; [reflexivity|]. split; [discriminate|].
  split; [reflexivity|].
  apply (upsert_docs_one_query_per_pair demo_backend demo_config demo_store
           "xray-rag" "default" ["a"; "bb"; "abc"]%string
           (demo_embed <$> ["a"; "bb"; "abc"]%string) (demo_world []) (demo_world []));
    [reflexivity | reflexivity | discriminate | reflexivity].
Defined.

Lemma run_dedup_loop_index_down (B : backend) self idx ns pairs acc (w : world B) :
  index self = Some idx ->
  (forall emb w', exists e w'',
      on_index_query B idx ns emb 1 true w' = (Raise e, w'')) ->
  exists w1 tr,
    run B (dedup_loop self ns pairs acc) w = (Ok acc, w1, tr)
    /\ Forall (fun ev => is_index_upsert ev = false) tr.
Proof.
  intros Hidx Hdown. revert w. induction pairs as [|[text emb] rest IH]; intros w.
  - exists w, []. split; [reflexivity | constructor].
  - rewrite (run_dedup_loop_cons B self idx Hidx).
    destruct (Hdown emb w) as [e [w' Hq]]. rewrite Hq.
    destruct (IH w') as [w1 [tr [Hrun Hall]]]. rewrite Hrun.
    eexists _, _. split; [reflexivity|]. constructor; [reflexivity | exact Hall].
Qed.

(** X18. While the index answers no dedup query, a batch is dropped in
    silence: [upsert_docs] returns normally, without any insertion. *)
Theorem upsert_docs_index_down (B : backend) (cfg : Config) (self : PineconeRAG)
    (idx ns : string) (docs : list string) (embeddings : list vector)
    (w w1 : world B) :
  enabled self = true ->
  index self = Some idx ->
  docs <> [] ->
  on_embeddings_create B (EMBEDDING_MODEL cfg) docs w = (Ok embeddings, w1) ->
  (forall emb w', exists e w'',
      on_index_query B idx ns emb 1 true w' = (Raise e, w'')) ->
  exists w2 tr,
    run B (upsert_docs cfg self docs ns) w = (Ok tt, w2, tr)
    /\ Forall (fun ev => is_index_upsert ev = false) tr.
Proof.
  intros Hen Hidx Hdocs Hemb Hdown.
  rewrite (run_upsert_docs B cfg self ns docs embeddings w w1 Hen Hdocs Hemb).
  destruct (run_dedup_loop_index_down B self idx ns (zip docs embeddings) [] w1
              Hidx Hdown) as [w2 [tr [Hrun Hall]]].
  rewrite Hrun. cbn. rewrite app_nil_r.
  eexists _, _. split; [reflexivity|]. constructor; [reflexivity | exact Hall].
Qed.

Lemma upsert_docs_index_down_witness :
  enabled demo_store = true
  /\ index demo_store = Some "xray-rag"%string
  /\ ["a"; "bb"]%string <> []
  /\ on_embeddings_create (outage_backend true true) (EMBEDDING_MODEL demo_config)
       ["a"; "bb"]%string tt = (Ok (demo_embed <$> ["a"; "bb"]%string), tt)
  /\ (forall emb w', exists e w'',
         on_index_query (outage_backend true true) "xray-rag" "default" emb 1 true w'
         = (Raise e, w''))
  /\ exists w2 tr,
       run (outage_backend true true)
         (upsert_docs demo_config demo_store ["a"; "bb"]%string "default") tt
       = (Ok tt, w2, tr)
       /\ Forall (fun ev => is_index_upsert ev = false) tr.
Proof.
  split; [reflexivity|]. split; [reflexivity|]. split; [discriminate|].
  split; [reflexivity|].
  split; [intros emb w'; eexists _, _; reflexivity|].
  apply (upsert_docs_index_down (outage_backend true true) demo_config demo_store
           "xray-rag" "default" ["a"; "bb"]%string
           (demo_embed <$> ["a"; "bb"]%string) tt tt);
    [reflexivity | reflexivity | discriminate | reflexivity
     | intros emb w'; eexists _, _; reflexivity].
Defined.

(** X19. Unlike ingestion, retrieval does not swallow a failing query: the
    exception of the index query is the exception of [retrieve]. *)
Theorem retrieve_query_failure (B : backend) (cfg : Config) (self : PineconeRAG)
    (idx query ns : string) (k : Z) (q_emb : vector) (embs : list vector)
    (e : exn) (w w1 w2 : world B) :
  enabled self = true ->
  index self = Some idx ->
  on_embeddings_create B (EMBEDDING_MODEL cfg) [query] w = (Ok (q_emb :: embs), w1) ->
  on_index_query B idx ns q_emb k true w1 = (Raise e, w2) ->
  run B (retrieve cfg self query k ns) w
  = (Raise e, w2,
     [Event (embeddings_create (EMBEDDING_MODEL cfg) [query]) (Ok (q_emb :: embs));
      Event (index_query idx ns q_emb k true) (Raise e)]).
Proof.
  intros Hen Hidx Hemb Hq.
  unfold retrieve, embed_text, self_index. rewrite Hen, Hidx.
  cbn [negb bind perform run handle]. rewrite Hemb.
  cbn [bind]. rewrite py_getitem_head.
  cbn [bind lift run handle]. rewrite Hq. reflexivity.
Qed.

Lemma retrieve_query_failure_witness :
  enabled demo_store = true
  /\ index demo_store = Some "xray-rag"%string
  /\ on_embeddings_create (outage_backend true true) (EMBEDDING_MODEL demo_config)
       ["a"%string] tt = (Ok [demo_embed "a"], tt)
  /\ on_index_query (outage_backend true true) "xray-rag" "default"
       (demo_embed "a") 3 true tt = (Raise (BackendError "unavailable"), tt)
  /\ run (outage_backend true true)
       (retrieve demo_config demo_store "a" 3 "default") tt
     = (Raise (BackendError "unavailable"), tt,
        [Event (embeddings_create (EMBEDDING_MODEL demo_config) ["a"%string])
           (Ok [demo_embed "a"]);
         Event (index_query "xray-rag" "default" (demo_embed "a") 3 true)
           (Raise (BackendError "unavailable"))]).
Proof.
  split; [reflexivity|]. split; [reflexivity|]. split; [reflexivity|].
  split; [reflexivity|].
  apply (retrieve_query_failure (outage_backend true true) demo_config demo_store
           "xray-rag" "a" "default" 3 (demo_embed "a") []
           (BackendError "unavailable") tt tt tt);
    reflexivity.
Defined.

(** ** Ingestion followed by another call, on the reference index *)

Section MemRoundTrip.

Variable embed : string -> vector.
Variable similarity : vector -> vector -> float.
Variable cfg : Config.
Variable self : PineconeRAG.
Variable idx : string.
Hypothesis Hen : enabled self = true.
Hypothesis Hindex : index self = Some idx.

Lemma mem_query_single store ns q top_k r :
  store !! ns = Some [r] ->
  0 < top_k ->
  mem_query similarity store ns q top_k = {| matches := [mem_match similarity q r] |}.
Proof.
  intros Hs Hk. unfold mem_query. rewrite Hs.
  change (mem_match similarity q <$> default [] (Some [r]))
    with [mem_match similarity q r].
  destruct (Z.to_nat top_k) as [|n] eqn:Hn; [lia|].
  change (merge_sort score_ge [mem_match similarity q r])
    with [mem_match similarity q r].
  cbn [take]. rewrite take_nil. reflexivity.
Qed.

Lemma mem_upsert_docs_single ns text (w : mem_world) :
  mem_faults w = [] ->
  default [] (mem_store w !! ns) = [] ->
  run (mem_backend embed similarity) (upsert_docs cfg self [text] ns) w
  = (Ok tt, stocked_with embed w ns text,
     [Event (embeddings_create (EMBEDDING_MODEL cfg) [text]) (Ok [embed text]);
      query_event idx ns (embed text) (Ok {| matches := [] |});
      Event uuid4 (Ok (uid (mem_next_id w)));
      Event (index_upsert idx [new_vector (uid (mem_next_id w)) (embed text) text] ns)
        (Ok tt)]).
Proof.
  intros Hf Hempty.
  rewrite (run_upsert_docs (mem_backend embed similarity) cfg self ns [text]
             (embed <$> [text]) w w Hen) by (discriminate || reflexivity).
  cbn [fmap list_fmap zip_with].
  rewrite (run_dedup_loop_cons (mem_backend embed similarity) self idx Hindex).
  rewrite (mem_query_no_fault embed similarity), (mem_query_empty similarity)
    by assumption.
  cbn [is_duplicate matches on_uuid4 mem_backend].
  cbn [dedup_loop run then_trace app].
  rewrite (run_insert_staged (mem_backend embed similarity) self idx Hindex).
  cbn [on_index_upsert mem_backend then_trace app mem_store mem_next_id
       mem_indexes mem_faults].
  unfold stocked_with, mem_upsert. rewrite Hempty.
  cbn [fold_left put_record]. rewrite Hf. reflexivity.
Qed.

End MemRoundTrip.

(** X20. Round trip on the reference index: after [upsert_docs] has stored
    one text in an empty namespace, [retrieve] with a positive [k] returns
    one row, carrying that text, the id drawn for it, and the similarity of
    the query's embedding to the text's. *)
Theorem upsert_then_retrieve
    (embed : string -> vector) (similarity : vector -> vector -> float)
    (cfg : Config) (self : PineconeRAG) (idx ns text query : string) (k : Z)
    (w : mem_world) :
  enabled self = true ->
  index self = Some idx ->
  mem_faults w = [] ->
  default [] (mem_store w !! ns) = [] ->
  0 < k ->
  (run (mem_backend embed similarity)
     (upsert_docs cfg self [text] ns ;; retrieve cfg self query k ns)%prog w).1.1
  = Ok [(MStr text, uid (mem_next_id w), similarity (embed query) (embed text))].
Proof.
  intros Hen Hidx Hf Hempty Hk.
  rewrite run_bind,
    (mem_upsert_docs_single embed similarity cfg self idx Hen Hidx ns text w Hf Hempty).
  unfold retrieve, embed_text, self_index. rewrite Hen, Hidx.
  cbn [negb bind perform run handle on_embeddings_create mem_backend fmap list_fmap].
  rewrite py_getitem_head. cbn [bind lift run handle].
  rewrite (mem_query_no_fault embed similarity) by exact Hf.
  rewrite (mem_query_single similarity _ ns (embed query) k
             (new_vector (uid (mem_next_id w)) (embed text) text))
    by (exact Hk || (cbn [stocked_with mem_store]; apply lookup_insert_eq)).
  cbn [bind matches retrieve_loop metadata_get mem_match sv_metadata sv_id
       sv_score new_vector v_id v_values v_metadata].
  rewrite lookup_singleton_eq. reflexivity.
Qed.

Lemma upsert_then_retrieve_witness :
  enabled demo_store = true
  /\ index demo_store = Some "xray-rag"%string
  /\ mem_faults (demo_world []) = []
  /\ default [] (mem_store (demo_world []) !! "default"%string) = []
  /\ 0 < 3
  /\ (run demo_backend
        (upsert_docs demo_config demo_store ["XPS"%string] "default" ;;
         retrieve demo_config demo_store "XAS" 3 "default")%prog (demo_world [])).1.1
     = Ok [(MStr "XPS", uid 0, cosine (demo_embed "XAS") (demo_embed "XPS"))].
Proof.
  split; [reflexivity|]. split; [reflexivity|]. split; [reflexivity|].
  split; [reflexivity|]. split; [lia|].
  apply (upsert_then_retrieve demo_embed cosine demo_config demo_store
           "xray-rag" "default" "XPS" "XAS" 3 (demo_world []));
    [reflexivity | reflexivity | reflexivity | reflexivity | lia].
Defined.

(** X21. Dedup across calls on the reference index: when one text is
    upserted twice into a namespace that was empty, the second call's query
    sees the record of the first. The second call inserts nothing when the
    similarity of the text's embedding to itself is above 0.99, and
    otherwise stores the text a second time under a new id. *)
Theorem upsert_docs_twice
    (embed : string -> vector) (similarity : vector -> vector -> float)
    (cfg : Config) (self : PineconeRAG) (idx ns text : string) (w : mem_world) :
  enabled self = true ->
  index self = Some idx ->
  mem_faults w = [] ->
  default [] (mem_store w !! ns) = [] ->
  exists w2 tr,
    run (mem_backend embed similarity)
      (upsert_docs cfg self [text] ns ;; upsert_docs cfg self [text] ns)%prog w
    = (Ok tt, w2, tr)
    /\ length (filter (fun ev => is_index_query ev = true) tr) = 2%nat
    /\ mem_store w2 !! ns
       = Some (if ltb lit_0_99 (similarity (embed text) (embed text))
               then [new_vector (uid (mem_next_id w)) (embed text) text]
               else [new_vector (uid (mem_next_id w)) (embed text) text;
                     new_vector (uid (S (mem_next_id w))) (embed text) text]).
Proof.
  intros Hen Hidx Hf Hempty.
  rewrite run_bind,
    (mem_upsert_docs_single embed similarity cfg self idx Hen Hidx ns text w Hf Hempty).
  rewrite (run_upsert_docs (mem_backend embed similarity) cfg self ns [text]
             (embed <$> [text]) _ (stocked_with embed w ns text) Hen)
    by (discriminate || reflexivity).
  cbn [fmap list_fmap zip_with].
  rewrite (run_dedup_loop_cons (mem_backend embed similarity) self idx Hidx).
  rewrite (mem_query_no_fault embed similarity) by exact Hf.
  rewrite (mem_query_single similarity _ ns (embed text) 1
             (new_vector (uid (mem_next_id w)) (embed text) text))
    by (lia || (cbn [stocked_with mem_store]; apply lookup_insert_eq)).
  cbn [is_duplicate matches mem_match sv_score new_vector v_values].
  destruct (ltb lit_0_99 (similarity (embed text) (embed text))).
  - cbn [dedup_loop run then_trace app insert_staged].
    eexists _, _. split; [reflexivity|]. split; [reflexivity|].
    cbn [stocked_with mem_store]. apply lookup_insert_eq.
  - cbn [on_uuid4 mem_backend stocked_with mem_next_id].
    cbn [dedup_loop run then_trace app].
    rewrite (run_insert_staged (mem_backend embed similarity) self idx Hidx).
    cbn [on_index_upsert mem_backend then_trace app mem_store].
    eexists _, _. split; [reflexivity|]. split; [reflexivity|].
    cbn [mem_store]. unfold mem_upsert.
    rewrite lookup_insert_eq. cbn [stocked_with mem_store].
    rewrite lookup_insert_eq.
    change (default [] (Some [new_vector (uid (mem_next_id w)) (embed text) text]))
      with [new_vector (uid (mem_next_id w)) (embed text) text].
    cbn [fold_left put_record new_vector v_id].
    destruct (String.eqb_spec (uid (mem_next_id w)) (uid (S (mem_next_id w))))
      as [Heq%uid_inj|_]; [lia | reflexivity].
Qed.

Lemma upsert_docs_twice_witness :
  enabled demo_store = true
  /\ index demo_store = Some "xray-rag"%string
  /\ mem_faults (demo_world []) = []
  /\ default [] (mem_store (demo_world []) !! "default"%string) = []
  /\ exists w2 tr,
       run demo_backend
         (upsert_docs demo_config demo_store ["XPS"%string] "default" ;;
          upsert_docs demo_config demo_store ["XPS"%string] "default")%prog
         (demo_world [])
       = (Ok tt, w2, tr)
       /\ length (filter (fun ev => is_index_query ev = true) tr) = 2%nat
       /\ mem_store w2 !! "default"%string
          = Some (if ltb lit_0_99 (cosine (demo_embed "XPS") (demo_embed "XPS"))
                  then [new_vector (uid (mem_next_id (demo_world [])))
                          (demo_embed "XPS") "XPS"]
                  else [new_vector (uid (mem_next_id (demo_world [])))
                          (demo_embed "XPS") "XPS";
                        new_vector (uid (S (mem_next_id (demo_world []))))
                          (demo_embed "XPS") "XPS"]).
Proof.
  split; [reflexivity|]. split; [reflexivity|]. split; [reflexivity|].
  split; [reflexivity|].
  apply (upsert_docs_twice demo_embed cosine demo_config demo_store
           "xray-rag" "default" "XPS" (demo_world []));
    reflexivity.
Defined.
